(** * Databento adapter: bar-type schema resolution and instrument-id mapping

    A shallow embedding of
    [nautilus_trader/adapters/databento/common.py]:

    - [databento_schema_from_nautilus_bar_type] (the spec's [resolve]);
    - [map_instrumentId] (the spec's [transcode]), a function decorated
      with [functools.lru_cache(20)].

    Python exceptions are modelled by the [result] type, Python [str]
    values by [string], and the wall clock read by
    [dt.datetime.now().year] by an explicit [year] argument. *)

From Stdlib Require Import ZArith List String Ascii Bool Lia DecimalString
  Permutation.
Import ListNotations.

Local Open Scope string_scope.

(* ================================================================== *)
(** ** Exceptions and the result of a call *)

(** The exceptions the two functions can end with.  [ValueError] and
    [IndexError] are Python's built-ins, with their message.  The last
    two constructors come from the error taxonomy of the spec:
    [ContractViolation] is what a failed [PyCondition.true] ends with
    (see [PyCondition_true] below) and [MalformedIdentifierError] is
    named by the spec only; no statement of the source raises it. *)
Inductive exn : Type :=
| ValueError (msg : string)
| IndexError (msg : string)
| ContractViolation (msg : string)
| MalformedIdentifierError (msg : string).

Inductive result (A : Type) : Type :=
| ok (a : A)
| raise (e : exn).

Arguments ok {A} a.
Arguments raise {A} e.

Definition bind {A B : Type} (r : result A) (k : A -> result B) : result B :=
  match r with
  | ok a => k a
  | raise e => raise e
  end.

Notation "x <- c ;; k" := (bind c (fun x => k))
  (at level 61, c at next level, right associativity).
Notation "c ;;; k" := (bind c (fun _ => k))
  (at level 61, right associativity).

(** The spec calls the [ValueError] raised by the schema function
    [UnsupportedBarTypeError]. *)
Definition is_ValueError {A : Type} (r : result A) : Prop :=
  exists msg, r = raise (ValueError msg).

(* ================================================================== *)
(** ** Python [str] primitives used by the source *)

Module Py.

(** [c.isdigit()] for a one-character string; symbols are ASCII text,
    on which the digits are ['0'] to ['9']. *)
Definition isdigit (c : ascii) : bool :=
  (48 <=? nat_of_ascii c)%nat && (nat_of_ascii c <=? 57)%nat.

(** [len(s)] as a Python integer. *)
Definition len (s : string) : Z := Z.of_nat (String.length s).

(** [s[i]]: a negative index counts from the end; an index outside
    the string raises [IndexError]. *)
Definition getitem (s : string) (i : Z) : result ascii :=
  let j := if (i <? 0)%Z then (i + len s)%Z else i in
  if ((j <? 0) || (len s <=? j))%Z
  then raise (IndexError "string index out of range")
  else match String.get (Z.to_nat j) s with
       | Some c => ok c
       | None => raise (IndexError "string index out of range")
       end.

(** [s[:j]]: a negative bound counts from the end, and the bound is
    clipped to the string; a slice never raises. *)
Definition slice_to (s : string) (j : Z) : string :=
  let k := if (j <? 0)%Z then Z.max 0 (j + len s) else Z.min j (len s) in
  String.substring 0 (Z.to_nat k) s.

(** A character as a one-character [str]. *)
Definition chr (c : ascii) : string := String c EmptyString.

(** [str(n)] for an [int]. *)
Definition str_of_int (n : Z) : string := NilZero.string_of_int (Z.to_int n).

End Py.

(* ================================================================== *)
(** ** Data model of the schema function *)

(** [DatabentoSchema] members returned by the source. *)
Inductive DatabentoSchema : Type :=
| OHLCV_1S
| OHLCV_1M
| OHLCV_1H
| OHLCV_1D.

(** Modelled from the spec: the enum [BarAggregation] is declared in
    [nautilus_trader.model.enums], which is not part of the source
    file.  The four members the source matches on are kept by name; the
    spec says that others exist upstream, and [OTHER_AGGREGATION n]
    stands for the member with value [n] among them. *)
Inductive BarAggregation : Type :=
| SECOND
| MINUTE
| HOUR
| DAY
| OTHER_AGGREGATION (n : nat).

(** Modelled from the spec: the enum [PriceType] (section 4.1 names
    BID, ASK and MID next to LAST). *)
Inductive PriceType : Type :=
| BID
| ASK
| MID
| LAST.

(** Modelled from the spec: the enum [AggregationSource] (section 3). *)
Inductive AggregationSource : Type :=
| EXTERNAL
| INTERNAL.

(** Modelled from the spec: the value objects [BarSpecification] and
    [BarType] with the attributes the source reads. *)
Record BarSpecification : Type := mkBarSpecification {
  step : Z;
  aggregation : BarAggregation;
  price_type : PriceType
}.

Record BarType : Type := mkBarType {
  spec : BarSpecification;
  aggregation_source : AggregationSource
}.

Definition PriceType_eqb (a b : PriceType) : bool :=
  match a, b with
  | BID, BID | ASK, ASK | MID, MID | LAST, LAST => true
  | _, _ => false
  end.

(** Modelled from the spec: [BarType.is_externally_aggregated], which
    holds when [aggregation_source] is EXTERNAL (the message the source
    passes for its failure reads the same). *)
Definition is_externally_aggregated (bar_type : BarType) : bool :=
  match aggregation_source bar_type with
  | EXTERNAL => true
  | INTERNAL => false
  end.

(** Modelled from the spec: [PyCondition.true] of
    [nautilus_trader.core.correctness], which is not part of the source
    file.  A false predicate is a programming-contract failure carrying
    the message (sections 4.1 and 7: [ContractViolation]). *)
Definition PyCondition_true (predicate : bool) (fail_msg : string) : result unit :=
  if predicate then ok tt else raise (ContractViolation fail_msg).

(** The members of [BarAggregation] the [match] of the source has a
    case for. *)
Definition supported_aggregation (a : BarAggregation) : bool :=
  match a with
  | SECOND | MINUTE | HOUR | DAY => true
  | OTHER_AGGREGATION _ => false
  end.

Section SchemaResolver.

(** [BarSpecification.is_time_aggregated] and the string form of a
    bar type ([f"{bar_type}"]) belong to value objects that are not
    part of the source file: both are parameters. *)
Variable is_time_aggregated : BarSpecification -> bool.
Variable BarType_str : BarType -> string.

Definition databento_schema_from_nautilus_bar_type (bar_type : BarType)
  : result DatabentoSchema :=
  PyCondition_true (is_externally_aggregated bar_type)
                   "aggregation_source is not EXTERNAL" ;;;
  if negb (is_time_aggregated (spec bar_type)) then
    raise (ValueError
      ("Invalid bar type '" ++ BarType_str bar_type
         ++ "' (only time bars are aggregated by Databento)."))
  else if negb (PriceType_eqb (price_type (spec bar_type)) LAST) then
    raise (ValueError
      ("Invalid bar type '" ++ BarType_str bar_type
         ++ "' (only `LAST` price bars are aggregated by Databento)."))
  else if negb (step (spec bar_type) =? 1)%Z then
    raise (ValueError
      ("Invalid bar type '" ++ BarType_str bar_type
         ++ "' (only a step of 1 is supported by Databento)."))
  else
    match aggregation (spec bar_type) with
    | SECOND => ok OHLCV_1S
    | MINUTE => ok OHLCV_1M
    | HOUR => ok OHLCV_1H
    | DAY => ok OHLCV_1D
    | _ =>
        raise (ValueError
          ("Invalid bar type '" ++ BarType_str bar_type ++ "'. "
             ++ "Use any of ['SECOND', 'MINTUE', 'HOUR', 'DAY'] time aggregations."))
    end.

End SchemaResolver.

(* ================================================================== *)
(** ** Data model of the identifier mapping *)

(** Modelled from the spec: the value object [InstrumentId] of
    [nautilus_trader.model.identifiers], which is not part of the source
    file: a symbol and a venue, each holding a string [value], compared
    and hashed as the pair. *)
Record InstrumentId : Type := mkInstrumentId {
  symbol : string;
  venue : string
}.

(** Modelled from the spec: [InstrumentId.from_str] applied to
    [f"{new_symbol}.{new_venue}"].  Neither the parser nor the string
    form is part of the source file; by sections 4.2 and 6 the string
    form is the symbol, a dot and the venue, and the result of the
    mapping is the identifier with the rewritten symbol and the
    rewritten venue. *)
Definition InstrumentId_from_str (new_symbol new_venue : string) : InstrumentId :=
  {| symbol := new_symbol; venue := new_venue |}.

Definition InstrumentId_eqb (a b : InstrumentId) : bool :=
  String.eqb (symbol a) (symbol b) && String.eqb (venue a) (venue b).

(** The decorated function, as written under [@lru_cache(20)]
    (Python's [map_instrumentId.__wrapped__]).  [year] is the value of
    [dt.datetime.now().year] at the call. *)
Definition map_instrumentId_wrapped (year : Z) (instrument_id : InstrumentId)
  : result InstrumentId :=
  (* transform venue *)
  let new_venue :=
    if String.eqb (venue instrument_id) "GLBX" then "CME"
    else if String.eqb (venue instrument_id) "CME" then "GLBX"
    else venue instrument_id in
  (* transform symbol *)
  c2 <- Py.getitem (symbol instrument_id) (-2) ;;
  new_symbol <-
    (if Py.isdigit c2 then
       c1 <- Py.getitem (symbol instrument_id) (-1) ;;
       ok (Py.slice_to (symbol instrument_id) (-2) ++ Py.chr c1)
     else
       c1 <- Py.getitem (symbol instrument_id) (-1) ;;
       if Py.isdigit c1 then
         (* assume first digit of current year *)
         y <- Py.getitem (Py.str_of_int year) 0 ;;
         c1' <- Py.getitem (symbol instrument_id) (-1) ;;
         ok (Py.slice_to (symbol instrument_id) (-1) ++ Py.chr y ++ Py.chr c1')
       else
         ok (symbol instrument_id)) ;;
  ok (InstrumentId_from_str new_symbol new_venue).

(* ================================================================== *)
(** ** [functools.lru_cache] with a positive [maxsize] *)

Module LruCache.
Section Wrapper.

Variables K V : Type.
Variable K_eqb : K -> K -> bool.

(** The state of the wrapper: the links of its queue from the oldest
    ([root.next]) to the newest ([root.prev]), each with its key and
    its result, and the two counters reported by [cache_info()].
    [misses] counts the calls of the user function. *)
Record state : Type := mkState {
  links : list (K * V);
  hits : nat;
  misses : nat
}.

Definition empty : state := {| links := []; hits := 0; misses := 0 |}.

(** [cache_get(key)]: the result stored under an equal key. *)
Fixpoint cache_get (key : K) (l : list (K * V)) : option V :=
  match l with
  | [] => None
  | (k, v) :: l' => if K_eqb key k then Some v else cache_get key l'
  end.

(** Taking the link of [key] out of the queue. *)
Fixpoint unlink (key : K) (l : list (K * V)) : list (K * V) :=
  match l with
  | [] => []
  | (k, v) :: l' => if K_eqb key k then l' else (k, v) :: unlink key l'
  end.

(** One call of the wrapper around [user_function]: a hit moves the
    link to the newest end and returns the stored result; a miss
    counts, calls the user function, and stores its result, in the
    place of the oldest link when the cache is full.  An exception of
    the user function leaves the queue as it was. *)
Definition call (maxsize : nat) (user_function : K -> result V)
           (key : K) (st : state) : result V * state :=
  match cache_get key (links st) with
  | Some r =>
      (ok r, {| links := (unlink key (links st) ++ [(key, r)])%list;
                hits := S (hits st);
                misses := misses st |})
  | None =>
      match user_function key with
      | raise e =>
          (raise e, {| links := links st;
                       hits := hits st;
                       misses := S (misses st) |})
      | ok r =>
          let full := (maxsize <=? List.length (links st))%nat in
          (ok r, {| links := ((if full then tl (links st) else links st)
                                ++ [(key, r)])%list;
                    hits := hits st;
                    misses := S (misses st) |})
      end
  end.

(** The keys of the queue, oldest first. *)
Definition keys (st : state) : list K := map fst (links st).

Definition cached (key : K) (st : state) : option V :=
  cache_get key (links st).

End Wrapper.
End LruCache.

Arguments LruCache.mkState {K V} _ _ _.
Arguments LruCache.links {K V} _.
Arguments LruCache.hits {K V} _.
Arguments LruCache.misses {K V} _.
Arguments LruCache.empty {K V}.
Arguments LruCache.cache_get {K V} _ _ _.
Arguments LruCache.unlink {K V} _ _ _.
Arguments LruCache.call {K V} _ _ _ _ _.
Arguments LruCache.keys {K V} _.
Arguments LruCache.cached {K V} _ _ _.

(** The state of the cache of [map_instrumentId]. *)
Definition cache : Type := LruCache.state InstrumentId InstrumentId.

(** [map_instrumentId] as callers see it: the decorated function behind
    [lru_cache(20)], keyed by its one argument. *)
Definition map_instrumentId (year : Z) (instrument_id : InstrumentId) (st : cache)
  : result InstrumentId * cache :=
  LruCache.call InstrumentId_eqb 20 (map_instrumentId_wrapped year) instrument_id st.

(** A sequence of calls, each at its own clock reading; the results are
    dropped and the cache is threaded through. *)
Fixpoint run_calls (calls : list (Z * InstrumentId)) (st : cache) : cache :=
  match calls with
  | [] => st
  | (year, instrument_id) :: rest =>
      run_calls rest (snd (map_instrumentId year instrument_id st))
  end.

(** The [k]-th character from the end of a string ([k = 1] for the last
    one), where the string is that long. *)
Definition char_from_end (k : nat) (s : string) : option ascii :=
  if (String.length s <? k)%nat then None
  else String.get (String.length s - k) s.

(** The two-element venue table of the spec (step 1 of section 4.2),
    used to state what the venue of a result is. *)
Definition swap_venue (v : string) : string :=
  if String.eqb v "GLBX" then "CME"
  else if String.eqb v "CME" then "GLBX"
  else v.

(** Whether a call returned. *)
Definition is_ok {A : Type} (r : result A) : bool :=
  match r with
  | ok _ => true
  | raise _ => false
  end.

(** The cache as a dictionary of at most 20 keys. *)
Definition cache_ok (st : cache) : Prop :=
  NoDup (LruCache.keys st) /\ (List.length (LruCache.links st) <= 20)%nat.

(** Every stored result is what the decorated function returns on its
    key when the clock reads [year]. *)
Definition coherent_at (year : Z) (st : cache) : Prop :=
  Forall (fun kv => map_instrumentId_wrapped year (fst kv) = ok (snd kv))
         (LruCache.links st).

(** The time aggregations of a bar specification, for the four units of
    the spec. *)
Definition four_units_are_time (sp : BarSpecification) : bool :=
  supported_aggregation (aggregation sp).

(** A rendering of a bar type in the style of section 6, used in
    examples. *)
Definition BarType_repr (bar_type : BarType) : string :=
  (match aggregation (spec bar_type) with
   | SECOND => "SECOND" | MINUTE => "MINUTE" | HOUR => "HOUR" | DAY => "DAY"
   | OTHER_AGGREGATION _ => "OTHER"
   end) ++ "-" ++ Py.str_of_int (step (spec bar_type)) ++ "-"
  ++ (match price_type (spec bar_type) with
      | BID => "BID" | ASK => "ASK" | MID => "MID" | LAST => "LAST"
      end) ++ "-"
  ++ (match aggregation_source bar_type with
      | EXTERNAL => "EXTERNAL" | INTERNAL => "INTERNAL"
      end).

(** Bar types of the examples. *)
Definition bar_1_MINUTE_LAST_EXTERNAL : BarType :=
  {| spec := {| step := 1; aggregation := MINUTE; price_type := LAST |};
     aggregation_source := EXTERNAL |}.

Definition bar_5_MINUTE_LAST_EXTERNAL : BarType :=
  {| spec := {| step := 5; aggregation := MINUTE; price_type := LAST |};
     aggregation_source := EXTERNAL |}.

Definition bar_1_MINUTE_LAST_INTERNAL : BarType :=
  {| spec := {| step := 1; aggregation := MINUTE; price_type := LAST |};
     aggregation_source := INTERNAL |}.

(** Twenty-one identifiers with distinct symbols, for the cache
    examples: [sample_ids 0 21] is A0H5.GLBX, A1H5.GLBX, ... *)
Fixpoint sample_ids (from n : nat) : list InstrumentId :=
  match n with
  | O => []
  | S n' =>
      {| symbol := "A" ++ Py.str_of_int (Z.of_nat from) ++ "H5"; venue := "GLBX" |}
        :: sample_ids (S from) n'
  end.

(** Two calls of the decorated function in a row, the second on the
    result of the first, each at its own clock reading. *)
Definition map_twice (year1 year2 : Z) (instrument_id : InstrumentId)
  : result InstrumentId :=
  x1 <- map_instrumentId_wrapped year1 instrument_id ;;
  map_instrumentId_wrapped year2 x1.

(** The symbols the [elif] branch of the source is for: a last
    character that is a digit after a penultimate one that is not. *)
Definition single_digit_form (s : string) : bool :=
  match char_from_end 2 s, char_from_end 1 s with
  | Some c, Some d => negb (Py.isdigit c) && Py.isdigit d
  | _, _ => false
  end.

(** Every stored result was returned by the decorated function on its
    key, at one of the clock readings [years]. *)
Definition computed_in (years : list Z) (st : cache) : Prop :=
  Forall (fun kv => exists year,
            In year years /\
            map_instrumentId_wrapped year (fst kv) = ok (snd kv))
         (LruCache.links st).

(** Every cached key has a symbol of at least two characters. *)
Definition keys_long (st : cache) : Prop :=
  Forall (fun kv => (2 <= String.length (symbol (fst kv)))%nat)
         (LruCache.links st).

(* ================================================================== *)
(** * Properties *)

(** ** The schema function *)

Section SchemaResolverFacts.

Variable is_time_aggregated : BarSpecification -> bool.
Variable BarType_str : BarType -> string.

Lemma PriceType_eqb_eq (a b : PriceType) : PriceType_eqb a b = true <-> a = b.
Proof. destruct a, b; simpl; split; congruence. Qed.

Lemma resolve_external (bar_type : BarType) :
  aggregation_source bar_type = EXTERNAL ->
  databento_schema_from_nautilus_bar_type is_time_aggregated BarType_str bar_type =
    if negb (is_time_aggregated (spec bar_type)) then
      raise (ValueError
        ("Invalid bar type '" ++ BarType_str bar_type
           ++ "' (only time bars are aggregated by Databento)."))
    else if negb (PriceType_eqb (price_type (spec bar_type)) LAST) then
      raise (ValueError
        ("Invalid bar type '" ++ BarType_str bar_type
           ++ "' (only `LAST` price bars are aggregated by Databento)."))
    else if negb (step (spec bar_type) =? 1)%Z then
      raise (ValueError
        ("Invalid bar type '" ++ BarType_str bar_type
           ++ "' (only a step of 1 is supported by Databento)."))
    else
      match aggregation (spec bar_type) with
      | SECOND => ok OHLCV_1S
      | MINUTE => ok OHLCV_1M
      | HOUR => ok OHLCV_1H
      | DAY => ok OHLCV_1D
      | _ =>
          raise (ValueError
            ("Invalid bar type '" ++ BarType_str bar_type ++ "'. "
               ++ "Use any of ['SECOND', 'MINTUE', 'HOUR', 'DAY'] time aggregations."))
      end.
Proof.
  intros Hsrc. unfold databento_schema_from_nautilus_bar_type,
    is_externally_aggregated. rewrite Hsrc. reflexivity.
Qed.

End SchemaResolverFacts.

(** C3.  An EXTERNAL bar type with price type LAST and step 1 resolves
    to OHLCV_1S, OHLCV_1M, OHLCV_1H or OHLCV_1D when its aggregation is
    SECOND, MINUTE, HOUR or DAY respectively (these four being time
    aggregations). *)
Theorem resolve_four_units
    (is_time_aggregated : BarSpecification -> bool)
    (BarType_str : BarType -> string) (bar_type : BarType) :
  (forall sp, supported_aggregation (aggregation sp) = true ->
              is_time_aggregated sp = true) ->
  aggregation_source bar_type = EXTERNAL ->
  price_type (spec bar_type) = LAST ->
  step (spec bar_type) = 1%Z ->
  (aggregation (spec bar_type) = SECOND ->
   databento_schema_from_nautilus_bar_type is_time_aggregated BarType_str bar_type
     = ok OHLCV_1S) /\
  (aggregation (spec bar_type) = MINUTE ->
   databento_schema_from_nautilus_bar_type is_time_aggregated BarType_str bar_type
     = ok OHLCV_1M) /\
  (aggregation (spec bar_type) = HOUR ->
   databento_schema_from_nautilus_bar_type is_time_aggregated BarType_str bar_type
     = ok OHLCV_1H) /\
  (aggregation (spec bar_type) = DAY ->
   databento_schema_from_nautilus_bar_type is_time_aggregated BarType_str bar_type
     = ok OHLCV_1D).
Proof.
  intros Htime Hsrc Hpt Hstep.
  rewrite (resolve_external _ _ _ Hsrc), Hpt, Hstep. simpl.
  repeat split; intros Hagg;
    rewrite (Htime (spec bar_type)) by (rewrite Hagg; reflexivity);
    rewrite Hagg; reflexivity.
Qed.

Lemma resolve_four_units_witness :
  (forall sp, supported_aggregation (aggregation sp) = true ->
              four_units_are_time sp = true) /\
  aggregation_source bar_1_MINUTE_LAST_EXTERNAL = EXTERNAL /\
  price_type (spec bar_1_MINUTE_LAST_EXTERNAL) = LAST /\
  step (spec bar_1_MINUTE_LAST_EXTERNAL) = 1%Z /\
  databento_schema_from_nautilus_bar_type four_units_are_time BarType_repr
    bar_1_MINUTE_LAST_EXTERNAL = ok OHLCV_1M.
Proof.
  split; [intros sp H; exact H |].
  split; [reflexivity |].
  split; [reflexivity |].
  split; [reflexivity |].
  apply (resolve_four_units four_units_are_time BarType_repr
           bar_1_MINUTE_LAST_EXTERNAL); try reflexivity.
  intros sp H; exact H.
Defined.

(** A raised [ValueError] is told apart from a returned schema, and the
    four disjuncts of the rejection condition are searched in turn. *)
Ltac settle_rejection :=
  match goal with
  | |- is_ValueError (raise (ValueError _)) <-> _ =>
      split; [ intros _ | intros _; eexists; reflexivity ];
      first [ left; reflexivity
            | right; left; congruence
            | right; right; left; assumption
            | right; right; right; reflexivity ]
  | |- is_ValueError (ok _) <-> _ =>
      split; [ intros [m Hm]; discriminate Hm
             | intros [H | [H | [H | H]]];
               first [ discriminate H | congruence | contradiction ] ]
  end.

(** C4.  On an EXTERNAL bar type the schema function raises
    [ValueError] (the spec's UnsupportedBarTypeError) exactly when the
    specification is not time aggregated, or its price type is not
    LAST, or its step is not 1, or its aggregation is none of SECOND,
    MINUTE, HOUR, DAY; and whatever is raised is a [ValueError] whose
    message contains the string form of the bar type. *)
Theorem resolve_rejects_iff
    (is_time_aggregated : BarSpecification -> bool)
    (BarType_str : BarType -> string) (bar_type : BarType) :
  aggregation_source bar_type = EXTERNAL ->
  (is_ValueError
     (databento_schema_from_nautilus_bar_type is_time_aggregated BarType_str bar_type)
   <->
   (is_time_aggregated (spec bar_type) = false \/
    price_type (spec bar_type) <> LAST \/
    step (spec bar_type) <> 1%Z \/
    supported_aggregation (aggregation (spec bar_type)) = false)) /\
  (forall e,
     databento_schema_from_nautilus_bar_type is_time_aggregated BarType_str bar_type
       = raise e ->
     exists pre post, e = ValueError (pre ++ BarType_str bar_type ++ post)).
Proof.
  intros Hsrc. rewrite (resolve_external _ _ _ Hsrc).
  destruct (is_time_aggregated (spec bar_type)) eqn:Htime;
    destruct (price_type (spec bar_type)) eqn:Hpt;
    destruct (Z.eqb_spec (step (spec bar_type)) 1) as [Hstep | Hstep];
    destruct (aggregation (spec bar_type)) eqn:Hagg;
    simpl; (split; [ settle_rejection | ]);
    intros e He; inversion He; subst e;
    exists "Invalid bar type '"; eexists; reflexivity.
Qed.

Lemma resolve_rejects_iff_witness :
  aggregation_source bar_5_MINUTE_LAST_EXTERNAL = EXTERNAL /\
  is_ValueError
    (databento_schema_from_nautilus_bar_type four_units_are_time BarType_repr
       bar_5_MINUTE_LAST_EXTERNAL).
Proof.
  split; [reflexivity |].
  apply (proj1 (resolve_rejects_iff four_units_are_time BarType_repr
                  bar_5_MINUTE_LAST_EXTERNAL eq_refl)).
  right; right; left. discriminate.
Defined.

(** C5.  On a bar type whose aggregation source is not EXTERNAL the
    schema function ends with the contract violation of
    [PyCondition.true], whatever the other fields are (the check comes
    first), and this is not the [ValueError] of the later checks. *)
Theorem resolve_internal_contract_violation
    (is_time_aggregated : BarSpecification -> bool)
    (BarType_str : BarType -> string) (bar_type : BarType) :
  aggregation_source bar_type <> EXTERNAL ->
  databento_schema_from_nautilus_bar_type is_time_aggregated BarType_str bar_type
    = raise (ContractViolation "aggregation_source is not EXTERNAL") /\
  ~ is_ValueError
      (databento_schema_from_nautilus_bar_type is_time_aggregated BarType_str
         bar_type).
Proof.
  intros Hsrc.
  assert (H : databento_schema_from_nautilus_bar_type is_time_aggregated
                BarType_str bar_type
              = raise (ContractViolation "aggregation_source is not EXTERNAL")).
  { unfold databento_schema_from_nautilus_bar_type, is_externally_aggregated.
    destruct (aggregation_source bar_type); [contradiction | reflexivity]. }
  split; [exact H |].
  rewrite H. intros [m Hm]. discriminate Hm.
Qed.

Lemma resolve_internal_contract_violation_witness :
  aggregation_source bar_1_MINUTE_LAST_INTERNAL <> EXTERNAL /\
  databento_schema_from_nautilus_bar_type four_units_are_time BarType_repr
    bar_1_MINUTE_LAST_INTERNAL
    = raise (ContractViolation "aggregation_source is not EXTERNAL").
Proof.
  split; [discriminate |].
  apply (proj1 (resolve_internal_contract_violation four_units_are_time
                  BarType_repr bar_1_MINUTE_LAST_INTERNAL
                  ltac:(discriminate))).
Defined.

(* ------------------------------------------------------------------ *)
(** ** Strings: lengths, indices from the end, slices *)

Lemma string_length_app (s1 s2 : string) :
  String.length (s1 ++ s2) = (String.length s1 + String.length s2)%nat.
Proof. induction s1 as [| a s1 IH]; simpl; [reflexivity | now rewrite IH]. Qed.

Lemma get_app_r (pre s : string) (n : nat) :
  String.get (String.length pre + n) (pre ++ s) = String.get n s.
Proof. induction pre as [| a pre IH]; simpl; [reflexivity | exact IH]. Qed.

Lemma substring_app (pre s : string) (k : nat) :
  String.substring 0 (String.length pre + k) (pre ++ s)
  = pre ++ String.substring 0 k s.
Proof. induction pre as [| a pre IH]; simpl; [reflexivity | now rewrite IH]. Qed.

Lemma substring_0_0 (s : string) : String.substring 0 0 s = "".
Proof. destruct s; reflexivity. Qed.

Lemma app_assoc_string (s1 s2 s3 : string) : (s1 ++ s2) ++ s3 = s1 ++ s2 ++ s3.
Proof. induction s1 as [| a s1 IH]; simpl; [reflexivity | now rewrite IH]. Qed.

(** A string of at least two characters ends with a penultimate and a
    last character, after a prefix. *)
Lemma two_chars_inv (s : string) :
  (2 <= String.length s)%nat ->
  exists pre c d, s = pre ++ String c (String d "").
Proof.
  induction s as [| a s IH]; simpl; intros Hlen; [lia |].
  destruct s as [| b s'].
  - simpl in Hlen; lia.
  - destruct s' as [| b' s''].
    + exists "", a, b. reflexivity.
    + destruct IH as (pre & c & d & Heq); [simpl; lia |].
      exists (String a pre), c, d. simpl. now rewrite Heq.
Qed.

Lemma char_from_end_2_app (pre : string) (c d : ascii) :
  char_from_end 2 (pre ++ String c (String d "")) = Some c.
Proof.
  unfold char_from_end. rewrite string_length_app. simpl String.length.
  replace (String.length pre + 2 <? 2)%nat with false
    by (symmetry; apply Nat.ltb_ge; lia).
  replace (String.length pre + 2 - 2)%nat with (String.length pre + 0)%nat by lia.
  now rewrite get_app_r.
Qed.

Lemma char_from_end_1_app (pre : string) (c d : ascii) :
  char_from_end 1 (pre ++ String c (String d "")) = Some d.
Proof.
  unfold char_from_end. rewrite string_length_app. simpl String.length.
  replace (String.length pre + 2 <? 1)%nat with false
    by (symmetry; apply Nat.ltb_ge; lia).
  replace (String.length pre + 2 - 1)%nat with (String.length pre + 1)%nat by lia.
  now rewrite get_app_r.
Qed.

Lemma char_from_end_short (k : nat) (s : string) :
  (String.length s < k)%nat -> char_from_end k s = None.
Proof.
  intros H. unfold char_from_end.
  now replace (String.length s <? k)%nat with true
    by (symmetry; apply Nat.ltb_lt; exact H).
Qed.

(** [s[-k]] reads the [k]-th character from the end and raises
    [IndexError] where there is none. *)
Lemma getitem_from_end (s : string) (k : nat) :
  (1 <= k)%nat ->
  Py.getitem s (- Z.of_nat k)
  = match char_from_end k s with
    | Some c => ok c
    | None => raise (IndexError "string index out of range")
    end.
Proof.
  intros Hk. unfold Py.getitem, Py.len, char_from_end.
  replace (- Z.of_nat k <? 0)%Z with true by (symmetry; apply Z.ltb_lt; lia).
  destruct (Nat.ltb_spec (String.length s) k) as [Hlt | Hge].
  - replace (- Z.of_nat k + Z.of_nat (String.length s) <? 0)%Z with true
      by (symmetry; apply Z.ltb_lt; lia).
    reflexivity.
  - replace (- Z.of_nat k + Z.of_nat (String.length s) <? 0)%Z with false
      by (symmetry; apply Z.ltb_ge; lia).
    replace (Z.of_nat (String.length s)
               <=? - Z.of_nat k + Z.of_nat (String.length s))%Z with false
      by (symmetry; apply Z.leb_gt; lia).
    simpl orb. cbv iota.
    replace (Z.to_nat (- Z.of_nat k + Z.of_nat (String.length s)))
      with (String.length s - k)%nat by lia.
    reflexivity.
Qed.

(** [s[:-k]] keeps the first [len(s) - k] characters, none when the
    string is shorter than [k]. *)
Lemma slice_to_from_end (s : string) (k : nat) :
  (1 <= k)%nat ->
  Py.slice_to s (- Z.of_nat k) = String.substring 0 (String.length s - k) s.
Proof.
  intros Hk. unfold Py.slice_to, Py.len.
  replace (- Z.of_nat k <? 0)%Z with true by (symmetry; apply Z.ltb_lt; lia).
  f_equal. lia.
Qed.

Lemma slice_to_m2_app (pre : string) (c d : ascii) :
  Py.slice_to (pre ++ String c (String d "")) (-2) = pre.
Proof.
  change (-2)%Z with (- Z.of_nat 2)%Z.
  rewrite slice_to_from_end by lia. rewrite string_length_app. simpl String.length.
  replace (String.length pre + 2 - 2)%nat with (String.length pre + 0)%nat by lia.
  rewrite substring_app. simpl. 
  induction pre as [| a pre IH]; simpl; [reflexivity | now rewrite IH].
Qed.

Lemma slice_to_m1_app (pre : string) (c d : ascii) :
  Py.slice_to (pre ++ String c (String d "")) (-1) = pre ++ String c "".
Proof.
  change (-1)%Z with (- Z.of_nat 1)%Z.
  rewrite slice_to_from_end by lia. rewrite string_length_app. simpl String.length.
  replace (String.length pre + 2 - 1)%nat with (String.length pre + 1)%nat by lia.
  rewrite substring_app. reflexivity.
Qed.

Lemma getitem_m2_app (pre : string) (c d : ascii) :
  Py.getitem (pre ++ String c (String d "")) (-2) = ok c.
Proof.
  change (-2)%Z with (- Z.of_nat 2)%Z.
  rewrite getitem_from_end by lia. now rewrite char_from_end_2_app.
Qed.

Lemma getitem_m1_app (pre : string) (c d : ascii) :
  Py.getitem (pre ++ String c (String d "")) (-1) = ok d.
Proof.
  change (-1)%Z with (- Z.of_nat 1)%Z.
  rewrite getitem_from_end by lia. now rewrite char_from_end_1_app.
Qed.

Lemma getitem_m2_short (s : string) :
  (String.length s < 2)%nat ->
  Py.getitem s (-2) = raise (IndexError "string index out of range").
Proof.
  intros H. change (-2)%Z with (- Z.of_nat 2)%Z.
  rewrite getitem_from_end by lia. now rewrite char_from_end_short.
Qed.

(** [str(n)] is never empty: [str(n)[0]] is its first character. *)
Lemma str_of_int_first (n : Z) :
  exists y, String.get 0 (Py.str_of_int n) = Some y.
Proof.
  unfold Py.str_of_int.
  destruct (Z.to_int n) as [d | d]; simpl.
  - destruct d; simpl; eexists; reflexivity.
  - eexists; reflexivity.
Qed.

Lemma getitem_0 (s : string) (y : ascii) :
  String.get 0 s = Some y -> Py.getitem s 0 = ok y.
Proof.
  destruct s as [| a s]; simpl; intros H; [discriminate |].
  injection H as ->. reflexivity.
Qed.

(* ------------------------------------------------------------------ *)
(** ** The cache wrapper *)

Section LruCacheFacts.

Variables K V : Type.
Variable K_eqb : K -> K -> bool.
Hypothesis K_eqb_eq : forall a b, K_eqb a b = true <-> a = b.

Lemma K_eqb_refl (a : K) : K_eqb a a = true.
Proof. now apply K_eqb_eq. Qed.

Lemma K_eqb_neq (a b : K) : a <> b -> K_eqb a b = false.
Proof.
  intros H. destruct (K_eqb a b) eqn:E; [| reflexivity].
  apply K_eqb_eq in E. contradiction.
Qed.

(** A lookup finds a link stored under the very key asked for. *)
Lemma cache_get_In (key : K) (l : list (K * V)) (r : V) :
  LruCache.cache_get K_eqb key l = Some r -> In (key, r) l.
Proof.
  induction l as [| [k v] l IH]; simpl; [discriminate |].
  destruct (K_eqb key k) eqn:E.
  - intros H. injection H as ->. apply K_eqb_eq in E. subst k. now left.
  - intros H. right. now apply IH.
Qed.

Lemma cache_get_None (key : K) (l : list (K * V)) :
  LruCache.cache_get K_eqb key l = None <-> ~ In key (map fst l).
Proof.
  induction l as [| [k v] l IH]; simpl.
  - split; [intros _ [] | reflexivity].
  - destruct (K_eqb key k) eqn:E.
    + apply K_eqb_eq in E. subst k. split; [discriminate |].
      intros H. exfalso. apply H. now left.
    + rewrite IH. split.
      * intros H [Hk | Hin]; [| now apply H].
        subst k. rewrite K_eqb_refl in E. discriminate.
      * intros H Hin. apply H. now right.
Qed.

Lemma cache_get_NoDup_In (key : K) (l : list (K * V)) (r : V) :
  NoDup (map fst l) -> In (key, r) l ->
  LruCache.cache_get K_eqb key l = Some r.
Proof.
  induction l as [| [k v] l IH]; simpl; intros Hnd Hin; [contradiction |].
  inversion Hnd as [| ? ? Hnotin Hnd']; subst.
  destruct Hin as [Heq | Hin].
  - injection Heq as -> ->. now rewrite K_eqb_refl.
  - destruct (K_eqb key k) eqn:E.
    + apply K_eqb_eq in E. subst k. exfalso. apply Hnotin.
      change key with (fst (key, r)). now apply in_map.
    + now apply IH.
Qed.

Lemma unlink_length (key : K) (l : list (K * V)) (r : V) :
  LruCache.cache_get K_eqb key l = Some r ->
  S (List.length (LruCache.unlink K_eqb key l)) = List.length l.
Proof.
  induction l as [| [k v] l IH]; simpl; [discriminate |].
  destruct (K_eqb key k); [reflexivity |].
  intros H. simpl. now rewrite IH.
Qed.

Lemma unlink_absent (key : K) (l : list (K * V)) :
  ~ In key (map fst l) -> LruCache.unlink K_eqb key l = l.
Proof.
  induction l as [| [k v] l IH]; simpl; intros H; [reflexivity |].
  rewrite K_eqb_neq by (intros ->; apply H; now left).
  rewrite IH; [reflexivity |]. intros Hin. apply H. now right.
Qed.

Lemma unlink_app (key : K) (l suf : list (K * V)) :
  ~ In key (map fst suf) ->
  LruCache.unlink K_eqb key (l ++ suf)%list
  = (LruCache.unlink K_eqb key l ++ suf)%list.
Proof.
  intros H. induction l as [| [k v] l IH]; simpl.
  - now apply unlink_absent.
  - destruct (K_eqb key k); [reflexivity |]. now rewrite IH.
Qed.

Lemma unlink_keys_incl (key k : K) (l : list (K * V)) :
  In k (map fst (LruCache.unlink K_eqb key l)) -> In k (map fst l).
Proof.
  induction l as [| [k0 v] l IH]; simpl; [tauto |].
  destruct (K_eqb key k0); simpl; [now right |].
  intros [H | H]; [now left | right; now apply IH].
Qed.

Lemma unlink_NoDup (key : K) (l : list (K * V)) :
  NoDup (map fst l) ->
  NoDup (map fst (LruCache.unlink K_eqb key l)) /\
  ~ In key (map fst (LruCache.unlink K_eqb key l)).
Proof.
  induction l as [| [k v] l IH]; simpl; intros Hnd.
  - split; [constructor | tauto].
  - inversion Hnd as [| ? ? Hnotin Hnd']; subst.
    destruct (K_eqb key k) eqn:E.
    + apply K_eqb_eq in E. subst k. split; assumption.
    + destruct (IH Hnd') as [IH1 IH2]. simpl. split.
      * constructor; [| exact IH1].
        intros Hin. apply Hnotin. now apply unlink_keys_incl in Hin.
      * intros [Hk | Hin]; [| now apply IH2].
        subst k. rewrite K_eqb_refl in E. discriminate.
Qed.

Lemma NoDup_snoc (l : list K) (k : K) :
  NoDup l -> ~ In k l -> NoDup (l ++ [k])%list.
Proof.
  induction l as [| a l IH]; simpl; intros Hnd Hk.
  - constructor; [tauto | constructor].
  - inversion Hnd as [| ? ? Ha Hnd']; subst. constructor.
    + rewrite in_app_iff. simpl. intros [H | [H | []]]; [now apply Ha |].
      subst a. apply Hk. now left.
    + apply IH; [exact Hnd' |]. intros H. apply Hk. now right.
Qed.

Variable maxsize : nat.
Variable user_function : K -> result V.

(** The wrapper never holds more than [maxsize] links. *)
Lemma call_length (key : K) (st : LruCache.state K V) :
  (1 <= maxsize)%nat ->
  (List.length (LruCache.links st) <= maxsize)%nat ->
  (List.length
     (LruCache.links (snd (LruCache.call K_eqb maxsize user_function key st)))
   <= maxsize)%nat.
Proof.
  intros Hpos Hlen. unfold LruCache.call.
  destruct (LruCache.cache_get K_eqb key (LruCache.links st)) as [r |] eqn:Hget.
  - simpl. rewrite List.length_app. simpl.
    pose proof (unlink_length _ _ _ Hget). lia.
  - destruct (user_function key) as [r | e]; simpl; [| exact Hlen].
    rewrite List.length_app. simpl.
    destruct (Nat.leb_spec maxsize (List.length (LruCache.links st))) as [Hfull | Hfree].
    + destruct (LruCache.links st); simpl in *; lia.
    + lia.
Qed.

(** The keys of the links stay pairwise different, as those of a
    dictionary. *)
Lemma call_NoDup (key : K) (st : LruCache.state K V) :
  NoDup (LruCache.keys st) ->
  NoDup (LruCache.keys (snd (LruCache.call K_eqb maxsize user_function key st))).
Proof.
  unfold LruCache.keys, LruCache.call. intros Hnd.
  destruct (LruCache.cache_get K_eqb key (LruCache.links st)) as [r |] eqn:Hget.
  - simpl. rewrite map_app. simpl.
    destruct (unlink_NoDup key _ Hnd) as [H1 H2]. now apply NoDup_snoc.
  - destruct (user_function key) as [r | e]; simpl; [| exact Hnd].
    rewrite map_app. simpl. apply cache_get_None in Hget.
    destruct (maxsize <=? List.length (LruCache.links st))%nat.
    + apply NoDup_snoc.
      * destruct (LruCache.links st) as [| a l]; simpl in *;
          [constructor | inversion Hnd; assumption].
      * destruct (LruCache.links st) as [| a l]; simpl in *; tauto.
    + now apply NoDup_snoc.
Qed.

(** A call on a key outside the newest links [suf], fewer than
    [maxsize] of them, leaves them in place and puts the key right
    after them. *)
Lemma call_suffix (key : K) (st : LruCache.state K V)
      (rest suf : list (K * V)) (r : V) :
  LruCache.links st = (rest ++ suf)%list ->
  ~ In key (map fst suf) ->
  (List.length suf < maxsize)%nat ->
  user_function key = ok r ->
  exists rest' r',
    LruCache.links (snd (LruCache.call K_eqb maxsize user_function key st))
    = (rest' ++ suf ++ [(key, r')])%list.
Proof.
  intros Hlinks Hkey Hsuf Hret. unfold LruCache.call.
  destruct (LruCache.cache_get K_eqb key (LruCache.links st)) as [r0 |] eqn:Hget.
  - simpl. exists (LruCache.unlink K_eqb key rest), r0.
    rewrite Hlinks, (unlink_app _ _ _ Hkey). now rewrite <- app_assoc.
  - rewrite Hret. simpl.
    destruct (Nat.leb_spec maxsize (List.length (LruCache.links st))) as [Hfull | Hfree].
    + rewrite Hlinks in *. rewrite List.length_app in Hfull.
      destruct rest as [| a rest0]; simpl in *; [lia |].
      exists rest0, r. now rewrite <- app_assoc.
    + exists rest, r. rewrite Hlinks. now rewrite <- app_assoc.
Qed.

End LruCacheFacts.

(* ------------------------------------------------------------------ *)
(** ** The cached function *)

Lemma InstrumentId_eqb_eq (a b : InstrumentId) :
  InstrumentId_eqb a b = true <-> a = b.
Proof.
  unfold InstrumentId_eqb. rewrite andb_true_iff, !String.eqb_eq.
  destruct a as [sa va], b as [sb vb]; simpl. split.
  - intros [-> ->]. reflexivity.
  - intros H. injection H as -> ->. split; reflexivity.
Qed.

Lemma cache_get_app_absent (key : InstrumentId)
      (l l' : list (InstrumentId * InstrumentId)) :
  ~ In key (map fst l) ->
  LruCache.cache_get InstrumentId_eqb key (l ++ l')%list
  = LruCache.cache_get InstrumentId_eqb key l'.
Proof.
  induction l as [| [k v] l IH]; simpl; intros H; [reflexivity |].
  rewrite (K_eqb_neq _ _ InstrumentId_eqb_eq) by (intros ->; apply H; now left).
  apply IH. intros Hin. apply H. now right.
Qed.

Lemma map_instrumentId_cache_ok (year : Z) (instrument_id : InstrumentId)
      (st : cache) :
  cache_ok st -> cache_ok (snd (map_instrumentId year instrument_id st)).
Proof.
  intros [Hnd Hlen]. split.
  - apply (call_NoDup _ _ _ InstrumentId_eqb_eq). exact Hnd.
  - apply call_length; [lia | exact Hlen].
Qed.

Lemma run_calls_cache_ok (calls : list (Z * InstrumentId)) (st : cache) :
  cache_ok st -> cache_ok (run_calls calls st).
Proof.
  revert st. induction calls as [| [year k] calls IH]; simpl; intros st H;
    [exact H |].
  apply IH. now apply map_instrumentId_cache_ok.
Qed.

Lemma run_calls_app (calls1 calls2 : list (Z * InstrumentId)) (st : cache) :
  run_calls (calls1 ++ calls2)%list st = run_calls calls2 (run_calls calls1 st).
Proof.
  revert st. induction calls1 as [| [year k] calls1 IH]; simpl; intros st;
    [reflexivity | apply IH].
Qed.

(** Calls on pairwise different keys, each returning, line their keys
    up at the newest end of the queue while there is room for them. *)
Lemma run_calls_suffix (calls : list (Z * InstrumentId)) :
  forall (st : cache) (rest suf : list (InstrumentId * InstrumentId)),
    LruCache.links st = (rest ++ suf)%list ->
    NoDup (map fst suf ++ map snd calls)%list ->
    (List.length suf + List.length calls <= 20)%nat ->
    forallb (fun c => is_ok (map_instrumentId_wrapped (fst c) (snd c))) calls
      = true ->
    exists rest' suf',
      LruCache.links (run_calls calls st) = (rest' ++ suf ++ suf')%list /\
      map fst suf' = map snd calls.
Proof.
  induction calls as [| [year k] calls IH]; simpl;
    intros st rest suf Hlinks Hnd Hlen Hret.
  - exists rest, []. rewrite app_nil_r. split; [exact Hlinks | reflexivity].
  - apply andb_true_iff in Hret. destruct Hret as [Hk Hret].
    destruct (map_instrumentId_wrapped year k) as [r | e] eqn:Hr;
      [| discriminate Hk].
    assert (Hnotin : ~ In k (map fst suf)).
    { intros Hin. apply (NoDup_remove_2 _ _ _ Hnd).
      apply in_or_app. now left. }
    destruct (call_suffix _ _ _ InstrumentId_eqb_eq 20
                (map_instrumentId_wrapped year) k st rest suf r
                Hlinks Hnotin ltac:(lia) Hr) as (rest1 & r1 & Hlinks1).
    destruct (IH (snd (map_instrumentId year k st)) rest1
                 (suf ++ [(k, r1)])%list) as (rest2 & suf2 & Hfin & Hkeys).
    + exact Hlinks1.
    + rewrite map_app, <- app_assoc. exact Hnd.
    + rewrite List.length_app. simpl. lia.
    + exact Hret.
    + exists rest2, ((k, r1) :: suf2). split.
      * rewrite Hfin, <- app_assoc. reflexivity.
      * simpl. now rewrite Hkeys.
Qed.

(** After twenty-one calls on pairwise different identifiers, each
    returning, the first identifier is no longer cached and the twenty
    others are. *)
Lemma run_calls_21 (calls : list (Z * InstrumentId)) (st : cache)
      (first : InstrumentId) :
  cache_ok st ->
  List.length calls = 21%nat ->
  NoDup (map snd calls) ->
  forallb (fun c => is_ok (map_instrumentId_wrapped (fst c) (snd c))) calls
    = true ->
  hd_error (map snd calls) = Some first ->
  LruCache.cached InstrumentId_eqb first (run_calls calls st) = None /\
  (forall k, In k (tl (map snd calls)) ->
             LruCache.cached InstrumentId_eqb k (run_calls calls st) <> None).
Proof.
  intros Hok Hlen Hnd Hret Hfirst.
  destruct (exists_last (l := calls)) as (calls20 & [year21 k21] & ->);
    [intros ->; discriminate Hlen |].
  rewrite List.length_app in Hlen. simpl in Hlen.
  rewrite forallb_app in Hret. apply andb_true_iff in Hret.
  destruct Hret as [Hret20 Hret21]. simpl in Hret21.
  rewrite andb_true_r in Hret21.
  destruct (map_instrumentId_wrapped year21 k21) as [r21 | e] eqn:Hr21;
    [| discriminate Hret21].
  rewrite map_app in Hnd, Hfirst |- *. simpl in Hnd, Hfirst |- *.
  destruct (run_calls_suffix calls20 st (LruCache.links st) [])
    as (rest' & suf' & Hlinks & Hkeys).
  { now rewrite app_nil_r. }
  { simpl. apply NoDup_remove_1 in Hnd. now rewrite app_nil_r in Hnd. }
  { simpl. lia. }
  { exact Hret20. }
  simpl in Hlinks.
  pose proof (run_calls_cache_ok calls20 st Hok) as [_ Hlen20].
  assert (Hsuf : List.length suf' = 20%nat).
  { rewrite <- (length_map fst), Hkeys, length_map. lia. }
  rewrite Hlinks, List.length_app in Hlen20.
  destruct rest' as [| a rest']; [| simpl in Hlen20; lia].
  simpl in Hlinks.
  rewrite run_calls_app. simpl.
  unfold LruCache.cached, map_instrumentId, LruCache.call.
  assert (Hmiss : LruCache.cache_get InstrumentId_eqb k21
                    (LruCache.links (run_calls calls20 st)) = None).
  { apply (cache_get_None _ _ _ InstrumentId_eqb_eq).
    rewrite Hlinks, Hkeys. intros Hin.
    apply (NoDup_remove_2 _ _ _ Hnd). rewrite app_nil_r. exact Hin. }
  assert (Hfull : (20 <=? List.length (LruCache.links (run_calls calls20 st)))%nat
                  = true)
    by (apply Nat.leb_le; rewrite Hlinks; lia).
  rewrite Hmiss, Hr21, Hfull. cbv beta iota zeta. simpl snd.
  simpl LruCache.links. rewrite Hlinks.
  destruct calls20 as [| [year1 k1] calls19]; [simpl in Hlen; lia |].
  destruct suf' as [| [k1' r1] suf19]; [discriminate Hsuf |].
  simpl in Hkeys, Hfirst, Hnd |- *.
  injection Hkeys as -> Hkeys. injection Hfirst as <-.
  inversion Hnd as [| ? ? Hk1 Hnd']; subst.
  split.
  - apply (cache_get_None _ _ _ InstrumentId_eqb_eq).
    rewrite map_app, Hkeys. exact Hk1.
  - intros k Hin Hnone.
    apply (cache_get_None _ _ _ InstrumentId_eqb_eq) in Hnone.
    apply Hnone. rewrite map_app, Hkeys. exact Hin.
Qed.

(** A call whose stored results all agree with the decorated function
    at the present year returns what the decorated function returns,
    and keeps the cache that way. *)
Lemma map_instrumentId_coherent (year : Z) (instrument_id : InstrumentId)
      (st : cache) :
  coherent_at year st ->
  fst (map_instrumentId year instrument_id st)
    = map_instrumentId_wrapped year instrument_id /\
  coherent_at year (snd (map_instrumentId year instrument_id st)).
Proof.
  unfold coherent_at, map_instrumentId, LruCache.call. intros Hco.
  assert (Hsub : forall key l,
            Forall (fun kv => map_instrumentId_wrapped year (fst kv) = ok (snd kv)) l ->
            Forall (fun kv => map_instrumentId_wrapped year (fst kv) = ok (snd kv))
                   (LruCache.unlink InstrumentId_eqb key l)).
  { intros key l. induction l as [| [k v] l IH]; simpl; intros H; [constructor |].
    inversion H; subst. destruct (InstrumentId_eqb key k); [assumption |].
    constructor; [assumption | now apply IH]. }
  destruct (LruCache.cache_get InstrumentId_eqb instrument_id (LruCache.links st))
    as [r |] eqn:Hget.
  - apply (cache_get_In _ _ _ InstrumentId_eqb_eq) in Hget.
    pose proof (proj1 (Forall_forall _ _) Hco _ Hget) as Hr. simpl in Hr.
    simpl. split; [now rewrite Hr |].
    apply Forall_app. split; [now apply Hsub |].
    constructor; [exact Hr | constructor].
  - destruct (map_instrumentId_wrapped year instrument_id) as [r | e] eqn:Hr;
      cbn [fst snd LruCache.links]; (split; [reflexivity |]); [| exact Hco].
    apply Forall_app. split; [| constructor; [exact Hr | constructor]].
    destruct (20 <=? List.length (LruCache.links st))%nat; [| exact Hco].
    destruct (LruCache.links st); [constructor |].
    inversion Hco; assumption.
Qed.

(** The empty cache agrees with the decorated function at every year,
    and so does every cache filled by calls of one and the same year. *)
Lemma coherent_at_empty (year : Z) : coherent_at year LruCache.empty.
Proof. constructor. Qed.

Lemma run_calls_coherent (year : Z) (ids : list InstrumentId) (st : cache) :
  coherent_at year st ->
  coherent_at year (run_calls (map (pair year) ids) st).
Proof.
  revert st. induction ids as [| k ids IH]; simpl; intros st H; [exact H |].
  apply IH. now apply map_instrumentId_coherent.
Qed.

(* ------------------------------------------------------------------ *)
(** ** The decorated function *)

(** The three branches of the symbol rewrite at once, on a symbol split
    into its prefix, its penultimate character [c] and its last
    character [d]. *)
Lemma wrapped_on_split (year : Z) (instrument_id : InstrumentId)
      (pre : string) (c d : ascii) :
  symbol instrument_id = pre ++ String c (String d "") ->
  exists y,
    String.get 0 (Py.str_of_int year) = Some y /\
    map_instrumentId_wrapped year instrument_id
    = ok {| symbol :=
              if Py.isdigit c then pre ++ String d ""
              else if Py.isdigit d then pre ++ String c (String y (String d ""))
              else pre ++ String c (String d "");
            venue := swap_venue (venue instrument_id) |}.
Proof.
  intros Hsym. destruct (str_of_int_first year) as [y Hy].
  exists y. split; [exact Hy |].
  unfold map_instrumentId_wrapped, swap_venue, InstrumentId_from_str.
  rewrite Hsym, getitem_m2_app, getitem_m1_app, slice_to_m2_app,
    slice_to_m1_app, (getitem_0 _ _ Hy).
  simpl bind.
  destruct (Py.isdigit c); simpl bind; [reflexivity |].
  destruct (Py.isdigit d); simpl bind; [| reflexivity].
  unfold Py.chr. rewrite app_assoc_string. reflexivity.
Qed.

Lemma wrapped_short (year : Z) (instrument_id : InstrumentId) :
  (String.length (symbol instrument_id) < 2)%nat ->
  map_instrumentId_wrapped year instrument_id
  = raise (IndexError "string index out of range").
Proof.
  intros H. unfold map_instrumentId_wrapped.
  rewrite (getitem_m2_short _ H). reflexivity.
Qed.

(** The decorated function returns exactly on the symbols of at least
    two characters. *)
Lemma wrapped_returns_iff (year : Z) (instrument_id : InstrumentId) :
  is_ok (map_instrumentId_wrapped year instrument_id) = true
  <-> (2 <= String.length (symbol instrument_id))%nat.
Proof.
  split.
  - intros H. destruct (Nat.lt_ge_cases (String.length (symbol instrument_id)) 2)
      as [Hlt | Hge]; [| exact Hge].
    rewrite (wrapped_short year _ Hlt) in H. discriminate H.
  - intros H. destruct (two_chars_inv _ H) as (pre & c & d & Hsym).
    destruct (wrapped_on_split year _ _ _ _ Hsym) as (y & _ & ->). reflexivity.
Qed.

Lemma swap_venue_involutive (v : string) : swap_venue (swap_venue v) = v.
Proof.
  unfold swap_venue.
  destruct (String.eqb_spec v "GLBX") as [-> | H1]; [reflexivity |].
  destruct (String.eqb_spec v "CME") as [-> | H2]; [reflexivity |].
  destruct (String.eqb_spec v "GLBX"); [contradiction |].
  destruct (String.eqb_spec v "CME"); [contradiction | reflexivity].
Qed.

Lemma swap_venue_outside (v : string) :
  v <> "GLBX" -> v <> "CME" -> swap_venue v = v.
Proof.
  intros H1 H2. unfold swap_venue.
  destruct (String.eqb_spec v "GLBX"); [contradiction |].
  destruct (String.eqb_spec v "CME"); [contradiction | reflexivity].
Qed.

(** C1.  On a symbol whose last character is a digit and whose
    penultimate character is not, the first character of [str(year)]
    is inserted immediately before that last digit; the venue is
    rewritten by the venue table.  The cached function returns the same
    from every cache whose stored results agree with the decorated
    function at that year, the empty cache among them. *)
Theorem transcode_single_digit_year
    (year : Z) (instrument_id : InstrumentId) (pre : string) (c d : ascii) :
  symbol instrument_id = pre ++ String c (String d "") ->
  Py.isdigit c = false ->
  Py.isdigit d = true ->
  exists y,
    String.get 0 (Py.str_of_int year) = Some y /\
    map_instrumentId_wrapped year instrument_id
    = ok {| symbol := pre ++ String c (String y (String d ""));
            venue := swap_venue (venue instrument_id) |} /\
    (forall st : cache,
       coherent_at year st ->
       fst (map_instrumentId year instrument_id st)
       = ok {| symbol := pre ++ String c (String y (String d ""));
               venue := swap_venue (venue instrument_id) |}).
Proof.
  intros Hsym Hc Hd.
  destruct (wrapped_on_split year _ _ _ _ Hsym) as (y & Hy & Hr).
  rewrite Hc, Hd in Hr. exists y. split; [exact Hy |]. split; [exact Hr |].
  intros st Hco. rewrite <- Hr. now apply map_instrumentId_coherent.
Qed.

(** C1 at the input of the spec: ESH4.CME maps to ESH24.GLBX in 2024. *)
Lemma transcode_single_digit_year_witness :
  symbol {| symbol := "ESH4"; venue := "CME" |} = "ES" ++ String "H" (String "4" "") /\
  Py.isdigit "H" = false /\
  Py.isdigit "4" = true /\
  map_instrumentId_wrapped 2024 {| symbol := "ESH4"; venue := "CME" |}
  = ok {| symbol := "ESH24"; venue := "GLBX" |}.
Proof.
  split; [reflexivity |].
  split; [reflexivity |].
  split; [reflexivity |].
  destruct (transcode_single_digit_year 2024 {| symbol := "ESH4"; venue := "CME" |}
              "ES" "H" "4" eq_refl eq_refl eq_refl) as (y & Hy & Hr & _).
  vm_compute in Hy. injection Hy as Hy. subst y. exact Hr.
Defined.

(** C2.  On a symbol of at least two characters whose penultimate
    character is a digit, exactly that character is removed: the prefix
    and the last character are kept in order; the venue is rewritten by
    the venue table.  The cached function returns the same from every
    cache whose stored results agree with the decorated function. *)
Theorem transcode_two_digit_year
    (year : Z) (instrument_id : InstrumentId) (pre : string) (c d : ascii) :
  symbol instrument_id = pre ++ String c (String d "") ->
  Py.isdigit c = true ->
  map_instrumentId_wrapped year instrument_id
  = ok {| symbol := pre ++ String d "";
          venue := swap_venue (venue instrument_id) |} /\
  (forall st : cache,
     coherent_at year st ->
     fst (map_instrumentId year instrument_id st)
     = ok {| symbol := pre ++ String d "";
             venue := swap_venue (venue instrument_id) |}).
Proof.
  intros Hsym Hc.
  destruct (wrapped_on_split year _ _ _ _ Hsym) as (y & Hy & Hr).
  rewrite Hc in Hr. split; [exact Hr |].
  intros st Hco. rewrite <- Hr. now apply map_instrumentId_coherent.
Qed.

(** C2 at the input of the spec: ESH24.GLBX maps to ESH4.CME. *)
Lemma transcode_two_digit_year_witness :
  symbol {| symbol := "ESH24"; venue := "GLBX" |} = "ESH" ++ String "2" (String "4" "") /\
  Py.isdigit "2" = true /\
  map_instrumentId_wrapped 2024 {| symbol := "ESH24"; venue := "GLBX" |}
  = ok {| symbol := "ESH4"; venue := "CME" |}.
Proof.
  split; [reflexivity |].
  split; [reflexivity |].
  exact (proj1 (transcode_two_digit_year 2024
                  {| symbol := "ESH24"; venue := "GLBX" |}
                  "ESH" "2" "4" eq_refl eq_refl)).
Defined.

(** C8 as stated fails on a one-character symbol: A has no digit at
    its end and no penultimate character, yet the call on A.GLBX raises
    [IndexError] where the claim has it return A.CME. *)
Lemma transcode_no_digit_counterexample :
  char_from_end 1 "A" = Some "A"%char /\
  Py.isdigit "A" = false /\
  char_from_end 2 "A" = None /\
  map_instrumentId_wrapped 2024 {| symbol := "A"; venue := "GLBX" |}
    = raise (IndexError "string index out of range") /\
  map_instrumentId_wrapped 2024 {| symbol := "A"; venue := "GLBX" |}
    <> ok {| symbol := "A"; venue := "CME" |}.
Proof. repeat split; try reflexivity. discriminate. Qed.

(** C8, amended.  On a symbol of at least two characters whose last
    two characters are not digits, the symbol is returned unchanged and
    only the venue is rewritten, by the venue table.  The cached
    function returns the same from every cache whose stored results
    agree with the decorated function. *)
Theorem transcode_no_digit
    (year : Z) (instrument_id : InstrumentId) (pre : string) (c d : ascii) :
  symbol instrument_id = pre ++ String c (String d "") ->
  Py.isdigit c = false ->
  Py.isdigit d = false ->
  map_instrumentId_wrapped year instrument_id
  = ok {| symbol := symbol instrument_id;
          venue := swap_venue (venue instrument_id) |} /\
  (forall st : cache,
     coherent_at year st ->
     fst (map_instrumentId year instrument_id st)
     = ok {| symbol := symbol instrument_id;
             venue := swap_venue (venue instrument_id) |}).
Proof.
  intros Hsym Hc Hd.
  destruct (wrapped_on_split year _ _ _ _ Hsym) as (y & Hy & Hr).
  rewrite Hc, Hd, <- Hsym in Hr. split; [exact Hr |].
  intros st Hco. rewrite <- Hr. now apply map_instrumentId_coherent.
Qed.

(** C8 at the input of the spec: SPY.GLBX maps to SPY.CME. *)
Lemma transcode_no_digit_witness :
  symbol {| symbol := "SPY"; venue := "GLBX" |} = "S" ++ String "P" (String "Y" "") /\
  Py.isdigit "P" = false /\
  Py.isdigit "Y" = false /\
  map_instrumentId_wrapped 2024 {| symbol := "SPY"; venue := "GLBX" |}
  = ok {| symbol := "SPY"; venue := "CME" |}.
Proof.
  split; [reflexivity |].
  split; [reflexivity |].
  split; [reflexivity |].
  exact (proj1 (transcode_no_digit 2024 {| symbol := "SPY"; venue := "GLBX" |}
                  "S" "P" "Y" eq_refl eq_refl eq_refl)).
Defined.

(** C6 as stated fails: on the one-character symbol 4 the call raises
    Python's [IndexError], not a MalformedIdentifierError. *)
Lemma transcode_short_symbol_counterexample :
  map_instrumentId_wrapped 2024 {| symbol := "4"; venue := "CME" |}
    = raise (IndexError "string index out of range") /\
  (forall msg,
     map_instrumentId_wrapped 2024 {| symbol := "4"; venue := "CME" |}
       <> raise (MalformedIdentifierError msg)) /\
  fst (map_instrumentId 2024 {| symbol := "4"; venue := "CME" |} LruCache.empty)
    = raise (IndexError "string index out of range").
Proof.
  split; [reflexivity |]. split; [| reflexivity].
  intros msg H. discriminate H.
Qed.

(** C6, amended.  On a symbol that is empty or has one character the
    decorated function raises [IndexError] (the index [-2] is outside
    the string); the cached function hands the exception to the caller,
    returns no result and stores nothing. *)
Theorem transcode_short_symbol_raises
    (year : Z) (instrument_id : InstrumentId) :
  (String.length (symbol instrument_id) < 2)%nat ->
  map_instrumentId_wrapped year instrument_id
    = raise (IndexError "string index out of range") /\
  (forall st : cache,
     LruCache.cached InstrumentId_eqb instrument_id st = None ->
     map_instrumentId year instrument_id st
     = (raise (IndexError "string index out of range"),
        {| LruCache.links := LruCache.links st;
           LruCache.hits := LruCache.hits st;
           LruCache.misses := S (LruCache.misses st) |})).
Proof.
  intros Hlen. split; [exact (wrapped_short year _ Hlen) |].
  intros st Hmiss. unfold map_instrumentId, LruCache.call.
  unfold LruCache.cached in Hmiss. rewrite Hmiss.
  rewrite (wrapped_short year _ Hlen). reflexivity.
Qed.

Lemma transcode_short_symbol_raises_witness :
  (String.length (symbol {| symbol := "4"; venue := "CME" |}) < 2)%nat /\
  map_instrumentId_wrapped 2024 {| symbol := "4"; venue := "CME" |}
    = raise (IndexError "string index out of range").
Proof.
  split; [simpl; lia |].
  apply (proj1 (transcode_short_symbol_raises 2024
                  {| symbol := "4"; venue := "CME" |} ltac:(simpl; lia))).
Defined.

(** C7 as stated fails where a call raises: A.GLBX has its venue in the
    pair, but the call on it raises, so there is no second call and no
    venue to compare; on 24.GLBX the first call returns 4.CME and the
    second one raises. *)
Lemma venue_involution_counterexample :
  venue {| symbol := "A"; venue := "GLBX" |} = "GLBX" /\
  map_instrumentId_wrapped 2024 {| symbol := "A"; venue := "GLBX" |}
    = raise (IndexError "string index out of range") /\
  (x1 <- map_instrumentId_wrapped 2024 {| symbol := "A"; venue := "GLBX" |} ;;
   map_instrumentId_wrapped 2024 x1)
    = raise (IndexError "string index out of range") /\
  (x1 <- map_instrumentId_wrapped 2024 {| symbol := "24"; venue := "GLBX" |} ;;
   map_instrumentId_wrapped 2024 x1)
    = raise (IndexError "string index out of range").
Proof. repeat split; reflexivity. Qed.

(** C7, amended.  On a symbol of at least two characters the call
    returns and the venue of the result is CME for GLBX, GLBX for CME
    and the input venue otherwise; and whenever a second call on the
    result returns (it does when the result's symbol still has two
    characters), its venue is the venue of the first input. *)
Theorem venue_involution
    (year1 year2 : Z) (x : InstrumentId) :
  (2 <= String.length (symbol x))%nat ->
  exists x1,
    map_instrumentId_wrapped year1 x = ok x1 /\
    (venue x = "GLBX" -> venue x1 = "CME") /\
    (venue x = "CME" -> venue x1 = "GLBX") /\
    (venue x <> "GLBX" -> venue x <> "CME" -> venue x1 = venue x) /\
    (forall x2, map_instrumentId_wrapped year2 x1 = ok x2 -> venue x2 = venue x) /\
    ((2 <= String.length (symbol x1))%nat ->
     exists x2, map_instrumentId_wrapped year2 x1 = ok x2 /\ venue x2 = venue x).
Proof.
  intros Hlen.
  destruct (two_chars_inv _ Hlen) as (pre & c & d & Hsym).
  destruct (wrapped_on_split year1 _ _ _ _ Hsym) as (y & _ & Hr).
  eexists. split; [exact Hr |]. simpl venue.
  assert (Hsecond : forall x2,
            map_instrumentId_wrapped year2
              {| symbol := if Py.isdigit c then pre ++ String d ""
                           else if Py.isdigit d
                                then pre ++ String c (String y (String d ""))
                                else pre ++ String c (String d "");
                 venue := swap_venue (venue x) |} = ok x2 ->
            venue x2 = venue x).
  { intros x2 H2.
    assert (Hok : is_ok (map_instrumentId_wrapped year2
              {| symbol := if Py.isdigit c then pre ++ String d ""
                           else if Py.isdigit d
                                then pre ++ String c (String y (String d ""))
                                else pre ++ String c (String d "");
                 venue := swap_venue (venue x) |}) = true)
      by (rewrite H2; reflexivity).
    apply wrapped_returns_iff in Hok.
    destruct (two_chars_inv _ Hok) as (pre' & c' & d' & Hsym').
    destruct (wrapped_on_split year2 _ _ _ _ Hsym') as (y' & _ & Hr').
    rewrite Hr' in H2. injection H2 as <-. simpl.
    apply swap_venue_involutive. }
  repeat split.
  - intros ->. reflexivity.
  - intros ->. reflexivity.
  - apply swap_venue_outside.
  - exact Hsecond.
  - intros Hlen1.
    pose proof (proj2 (wrapped_returns_iff year2 _) Hlen1) as Hok.
    match type of Hok with
    | is_ok ?t = true => destruct t as [x2 | e] eqn:H2
    end; [| discriminate Hok].
    exists x2. split; [reflexivity |]. apply Hsecond. reflexivity.
Qed.

(** C7 (amended) on ESH24.GLBX: the venue goes to CME and a second
    call brings it back to GLBX. *)
Lemma venue_involution_witness :
  (2 <= String.length (symbol {| symbol := "ESH24"; venue := "GLBX" |}))%nat /\
  exists x1,
    map_instrumentId_wrapped 2024 {| symbol := "ESH24"; venue := "GLBX" |} = ok x1 /\
    exists x2,
      map_instrumentId_wrapped 2024 x1 = ok x2 /\ venue x2 = "GLBX".
Proof.
  split; [simpl; lia |].
  destruct (venue_involution 2024 2024 {| symbol := "ESH24"; venue := "GLBX" |}
              ltac:(simpl; lia))
    as (x1 & H1 & _ & _ & _ & _ & H2).
  exists x1. split; [exact H1 |].
  apply H2. vm_compute in H1. injection H1 as <-. simpl. lia.
Defined.

(** C10.  Whenever the decorated function returns, the symbol of the
    result starts with the first [len - 2] characters of the input
    symbol, followed by at most three characters: every branch leaves
    all but the last two positions as they were. *)
Theorem transcode_keeps_prefix
    (year : Z) (instrument_id result_id : InstrumentId) :
  map_instrumentId_wrapped year instrument_id = ok result_id ->
  exists rest,
    symbol result_id
    = String.substring 0 (String.length (symbol instrument_id) - 2)
                       (symbol instrument_id) ++ rest /\
    (String.length rest <= 3)%nat.
Proof.
  intros Hr.
  assert (Hok : is_ok (map_instrumentId_wrapped year instrument_id) = true)
    by (rewrite Hr; reflexivity).
  apply wrapped_returns_iff in Hok.
  destruct (two_chars_inv _ Hok) as (pre & c & d & Hsym).
  destruct (wrapped_on_split year _ _ _ _ Hsym) as (y & _ & Hr').
  rewrite Hr' in Hr. injection Hr as <-. simpl symbol.
  rewrite <- (slice_to_from_end (symbol instrument_id) 2) by lia.
  rewrite Hsym. change (- Z.of_nat 2)%Z with (-2)%Z. rewrite slice_to_m2_app.
  destruct (Py.isdigit c); [| destruct (Py.isdigit d)];
    eexists; (split; [reflexivity | simpl; lia]).
Qed.

Lemma transcode_keeps_prefix_witness :
  map_instrumentId_wrapped 2024 {| symbol := "ESH4"; venue := "CME" |}
    = ok {| symbol := "ESH24"; venue := "GLBX" |} /\
  exists rest, "ESH24" = "ES" ++ rest /\ (String.length rest <= 3)%nat.
Proof.
  split; [reflexivity |].
  exact (transcode_keeps_prefix 2024 {| symbol := "ESH4"; venue := "CME" |}
           {| symbol := "ESH24"; venue := "GLBX" |} eq_refl).
Defined.

(* ------------------------------------------------------------------ *)
(** ** Memoization *)

(** A call that returned leaves its key cached with the result it
    returned. *)
Lemma map_instrumentId_then_cached (year : Z) (instrument_id r : InstrumentId)
      (st : cache) :
  cache_ok st ->
  fst (map_instrumentId year instrument_id st) = ok r ->
  LruCache.cached InstrumentId_eqb instrument_id
    (snd (map_instrumentId year instrument_id st)) = Some r.
Proof.
  intros [Hnd _]. unfold map_instrumentId, LruCache.call, LruCache.cached.
  assert (Hlast : forall l,
            ~ In instrument_id (map fst l) ->
            LruCache.cache_get InstrumentId_eqb instrument_id
              (l ++ [(instrument_id, r)])%list = Some r).
  { intros l Hl. rewrite (cache_get_app_absent _ _ _ Hl). simpl.
    now rewrite (K_eqb_refl _ _ InstrumentId_eqb_eq). }
  destruct (LruCache.cache_get InstrumentId_eqb instrument_id (LruCache.links st))
    as [r0 |] eqn:Hget.
  - cbn [fst snd LruCache.links]. intros H. injection H as ->.
    apply Hlast. now apply (unlink_NoDup _ _ _ InstrumentId_eqb_eq).
  - apply (cache_get_None _ _ _ InstrumentId_eqb_eq) in Hget.
    destruct (map_instrumentId_wrapped year instrument_id) as [r0 | e];
      cbn [fst snd LruCache.links]; intros H; [| discriminate H].
    injection H as ->. apply Hlast.
    destruct (20 <=? List.length (LruCache.links st))%nat; [| exact Hget].
    destruct (LruCache.links st) as [| a l]; simpl in *; tauto.
Qed.

(** C9.  The cached function keeps a dictionary of at most 20 results
    keyed by the whole identifier: (1) the bound and the uniqueness of
    keys are kept by every call; (2) a lookup finds only a result stored
    under that very symbol and venue; (3) a call on a cached identifier
    returns the stored result, does not call the decorated function and
    makes the link the newest of the queue;
    (4) a call on an identifier that is not cached calls it once and
    returns what it returns; (5) a second call on the same identifier,
    at any year, returns the result of the first without a new call;
    (6) twenty-one calls on pairwise different identifiers, each
    returning, leave the first of them out of the cache and the twenty
    others in. *)
Theorem lru_cache_20_memoizes :
  (forall year id (st : cache),
     cache_ok st -> cache_ok (snd (map_instrumentId year id st))) /\
  (forall id (st : cache) r,
     LruCache.cached InstrumentId_eqb id st = Some r ->
     In (id, r) (LruCache.links st)) /\
  (forall year id (st : cache) r,
     LruCache.cached InstrumentId_eqb id st = Some r ->
     fst (map_instrumentId year id st) = ok r /\
     LruCache.misses (snd (map_instrumentId year id st)) = LruCache.misses st /\
     LruCache.links (snd (map_instrumentId year id st))
     = (LruCache.unlink InstrumentId_eqb id (LruCache.links st) ++ [(id, r)])%list) /\
  (forall year id (st : cache),
     LruCache.cached InstrumentId_eqb id st = None ->
     fst (map_instrumentId year id st) = map_instrumentId_wrapped year id /\
     LruCache.misses (snd (map_instrumentId year id st))
       = S (LruCache.misses st)) /\
  (forall year0 year1 id (st : cache) r,
     cache_ok st ->
     fst (map_instrumentId year0 id st) = ok r ->
     fst (map_instrumentId year1 id (snd (map_instrumentId year0 id st))) = ok r /\
     LruCache.misses
       (snd (map_instrumentId year1 id (snd (map_instrumentId year0 id st))))
     = LruCache.misses (snd (map_instrumentId year0 id st))) /\
  (forall (calls : list (Z * InstrumentId)) (st : cache) first,
     cache_ok st ->
     List.length calls = 21%nat ->
     NoDup (map snd calls) ->
     forallb (fun c => is_ok (map_instrumentId_wrapped (fst c) (snd c))) calls
       = true ->
     hd_error (map snd calls) = Some first ->
     LruCache.cached InstrumentId_eqb first (run_calls calls st) = None /\
     (forall k, In k (tl (map snd calls)) ->
                LruCache.cached InstrumentId_eqb k (run_calls calls st) <> None)).
Proof.
  assert (Hhit : forall year id (st : cache) r,
            LruCache.cached InstrumentId_eqb id st = Some r ->
            fst (map_instrumentId year id st) = ok r /\
            LruCache.misses (snd (map_instrumentId year id st))
              = LruCache.misses st /\
            LruCache.links (snd (map_instrumentId year id st))
            = (LruCache.unlink InstrumentId_eqb id (LruCache.links st)
                 ++ [(id, r)])%list).
  { intros year id st r H. unfold LruCache.cached in H.
    unfold map_instrumentId, LruCache.call. rewrite H.
    repeat split; reflexivity. }
  split; [exact map_instrumentId_cache_ok |].
  split; [intros id st r; apply (cache_get_In _ _ _ InstrumentId_eqb_eq) |].
  split; [exact Hhit |].
  split.
  { intros year id st H. unfold LruCache.cached in H.
    unfold map_instrumentId, LruCache.call. rewrite H.
    destruct (map_instrumentId_wrapped year id); split; reflexivity. }
  split.
  { intros year0 year1 id st r Hok H0.
    destruct (Hhit year1 id (snd (map_instrumentId year0 id st)) r) as (H1 & H2 & _);
      [now apply map_instrumentId_then_cached | split; assumption]. }
  exact run_calls_21.
Qed.

(** C9 on twenty-one identifiers A0H5.GLBX ... A20H5.GLBX mapped in 2024
    from the empty cache: A0H5.GLBX is evicted. *)
Lemma lru_cache_20_memoizes_witness :
  cache_ok LruCache.empty /\
  List.length (map (pair 2024%Z) (sample_ids 0 21)) = 21%nat /\
  NoDup (map snd (map (pair 2024%Z) (sample_ids 0 21))) /\
  forallb (fun c => is_ok (map_instrumentId_wrapped (fst c) (snd c)))
          (map (pair 2024%Z) (sample_ids 0 21)) = true /\
  LruCache.cached InstrumentId_eqb {| symbol := "A0H5"; venue := "GLBX" |}
    (run_calls (map (pair 2024%Z) (sample_ids 0 21)) LruCache.empty) = None.
Proof.
  assert (Hempty : cache_ok LruCache.empty).
  { split; [constructor | simpl; lia]. }
  assert (Hnd : NoDup (map snd (map (pair 2024%Z) (sample_ids 0 21)))).
  { vm_compute. repeat (constructor; [simpl; intuition discriminate |]).
    constructor. }
  split; [exact Hempty |].
  split; [reflexivity |].
  split; [exact Hnd |].
  split; [vm_compute; reflexivity |].
  apply (proj1 (proj2 (proj2 (proj2 (proj2 (proj2 lru_cache_20_memoizes))))
                  (map (pair 2024%Z) (sample_ids 0 21)) LruCache.empty
                  {| symbol := "A0H5"; venue := "GLBX" |}
                  Hempty eq_refl Hnd ltac:(vm_compute; reflexivity) eq_refl)).
Defined.

(** The cache test of the spec: after the twenty-one calls of 2024, a
    call on the evicted A0H5.GLBX in 1999 runs the rewrite again (decade
    digit 1), while the still cached A20H5.GLBX keeps its result of
    2024. *)
Example cache_eviction_observed :
  let st21 := run_calls (map (pair 2024%Z) (sample_ids 0 21)) LruCache.empty in
  let call1 := map_instrumentId 1999 {| symbol := "A0H5"; venue := "GLBX" |} st21 in
  let call2 := map_instrumentId 1999 {| symbol := "A20H5"; venue := "GLBX" |}
                                (snd call1) in
  fst call1 = ok {| symbol := "A0H15"; venue := "CME" |} /\
  fst call2 = ok {| symbol := "A20H25"; venue := "CME" |} /\
  List.length (LruCache.links (snd call2)) = 20%nat /\
  LruCache.misses (snd call2) = 22%nat /\
  LruCache.hits (snd call2) = 1%nat.
Proof. vm_compute. repeat split; reflexivity. Qed.

(** The examples of section 8 of the spec for the schema function. *)
Example resolve_step_5 :
  is_ValueError
    (databento_schema_from_nautilus_bar_type four_units_are_time BarType_repr
       bar_5_MINUTE_LAST_EXTERNAL).
Proof. eexists. reflexivity. Qed.

Example resolve_mid_price :
  is_ValueError
    (databento_schema_from_nautilus_bar_type four_units_are_time BarType_repr
       {| spec := {| step := 1; aggregation := MINUTE; price_type := MID |};
          aggregation_source := EXTERNAL |}).
Proof. eexists. reflexivity. Qed.

(** The first character of [str(year)] is the digit of the millennium:
    in 2034 the single-digit form ESH4 still maps to ESH24. *)
Example transcode_2034 :
  map_instrumentId_wrapped 2034 {| symbol := "ESH4"; venue := "CME" |}
  = ok {| symbol := "ESH24"; venue := "GLBX" |}.
Proof. reflexivity. Qed.

(** The key is the pair of symbol and venue: ESH4.CME and ESH4.GLBX are
    cached apart, and both calls run the rewrite. *)
Example cache_keyed_by_symbol_and_venue :
  let call1 := map_instrumentId 2024 {| symbol := "ESH4"; venue := "CME" |}
                                LruCache.empty in
  let call2 := map_instrumentId 2024 {| symbol := "ESH4"; venue := "GLBX" |}
                                (snd call1) in
  fst call1 = ok {| symbol := "ESH24"; venue := "GLBX" |} /\
  fst call2 = ok {| symbol := "ESH24"; venue := "CME" |} /\
  LruCache.misses (snd call2) = 2%nat /\
  LruCache.hits (snd call2) = 0%nat.
Proof. vm_compute. repeat split; reflexivity. Qed.

(** A result cached in 1999 is returned as it is in 2024, where the
    decorated function itself gives another one. *)
Example cache_stale_across_years :
  let call1 := map_instrumentId 1999 {| symbol := "ESH4"; venue := "CME" |}
                                LruCache.empty in
  let call2 := map_instrumentId 2024 {| symbol := "ESH4"; venue := "CME" |}
                                (snd call1) in
  fst call2 = ok {| symbol := "ESH14"; venue := "GLBX" |} /\
  map_instrumentId_wrapped 2024 {| symbol := "ESH4"; venue := "CME" |}
    = ok {| symbol := "ESH24"; venue := "GLBX" |}.
Proof. vm_compute. split; reflexivity. Qed.

(** Eviction goes by use, not by insertion: when A0H5.GLBX is asked for
    again after twenty insertions, the twenty-first insertion evicts
    A1H5.GLBX and keeps A0H5.GLBX. *)
Example cache_evicts_least_recently_used :
  let st20 := run_calls (map (pair 2024%Z) (sample_ids 0 20)) LruCache.empty in
  let st := run_calls [(2024%Z, {| symbol := "A0H5"; venue := "GLBX" |});
                       (2024%Z, {| symbol := "A20H5"; venue := "GLBX" |})] st20 in
  LruCache.cached InstrumentId_eqb {| symbol := "A0H5"; venue := "GLBX" |} st
    = Some {| symbol := "A0H25"; venue := "CME" |} /\
  LruCache.cached InstrumentId_eqb {| symbol := "A1H5"; venue := "GLBX" |} st
    = None /\
  List.length (LruCache.links st) = 20%nat.
Proof. vm_compute. repeat split; reflexivity. Qed.

(* ================================================================== *)
(** * Further properties of the two functions *)

(** ** The schema function: outcomes *)

(** X1.  The schema function returns a schema exactly on the EXTERNAL
    bar types that are time aggregated, have price type LAST and step 1
    and one of the four aggregations of the [match]. *)
Theorem resolve_returns_iff
    (is_time_aggregated : BarSpecification -> bool)
    (BarType_str : BarType -> string) (bar_type : BarType) :
  is_ok (databento_schema_from_nautilus_bar_type is_time_aggregated BarType_str
           bar_type) = true
  <->
  (aggregation_source bar_type = EXTERNAL /\
   is_time_aggregated (spec bar_type) = true /\
   price_type (spec bar_type) = LAST /\
   step (spec bar_type) = 1%Z /\
   supported_aggregation (aggregation (spec bar_type)) = true).
Proof.
  unfold databento_schema_from_nautilus_bar_type, is_externally_aggregated.
  destruct (aggregation_source bar_type);
    destruct (is_time_aggregated (spec bar_type));
    destruct (price_type (spec bar_type));
    destruct (Z.eqb_spec (step (spec bar_type)) 1) as [Hstep | Hstep];
    destruct (aggregation (spec bar_type));
    simpl; split;
    solve [ intros H; discriminate H
          | intros _; repeat split; assumption
          | intros (H1 & H2 & H3 & H4 & H5);
            first [ discriminate | contradiction | reflexivity ] ].
Qed.

(** X2.  The schema is a one-to-one function of the aggregation: two
    bar types that resolve (under whatever string forms) get the same
    schema exactly when they have the same aggregation. *)
Theorem resolve_schema_one_to_one
    (is_time_aggregated is_time_aggregated' : BarSpecification -> bool)
    (BarType_str BarType_str' : BarType -> string)
    (bar_type1 bar_type2 : BarType) (schema1 schema2 : DatabentoSchema) :
  databento_schema_from_nautilus_bar_type is_time_aggregated BarType_str
    bar_type1 = ok schema1 ->
  databento_schema_from_nautilus_bar_type is_time_aggregated' BarType_str'
    bar_type2 = ok schema2 ->
  (schema1 = schema2
   <-> aggregation (spec bar_type1) = aggregation (spec bar_type2)).
Proof.
  unfold databento_schema_from_nautilus_bar_type.
  destruct (PyCondition_true (is_externally_aggregated bar_type1) _);
    [| discriminate].
  destruct (PyCondition_true (is_externally_aggregated bar_type2) _);
    [| discriminate].
  simpl bind.
  destruct (negb (is_time_aggregated (spec bar_type1))); [discriminate |].
  destruct (negb (PriceType_eqb (price_type (spec bar_type1)) LAST));
    [discriminate |].
  destruct (negb (step (spec bar_type1) =? 1)%Z); [discriminate |].
  destruct (negb (is_time_aggregated' (spec bar_type2))); [discriminate |].
  destruct (negb (PriceType_eqb (price_type (spec bar_type2)) LAST));
    [discriminate |].
  destruct (negb (step (spec bar_type2) =? 1)%Z); [discriminate |].
  destruct (aggregation (spec bar_type1)); intros H1; try discriminate H1;
    destruct (aggregation (spec bar_type2)); intros H2; try discriminate H2;
    injection H1 as <-; injection H2 as <-;
    split; intros H; first [reflexivity | discriminate H].
Qed.

Lemma resolve_schema_one_to_one_witness :
  databento_schema_from_nautilus_bar_type four_units_are_time BarType_repr
    bar_1_MINUTE_LAST_EXTERNAL = ok OHLCV_1M /\
  (OHLCV_1M = OHLCV_1M
   <-> aggregation (spec bar_1_MINUTE_LAST_EXTERNAL)
       = aggregation (spec bar_1_MINUTE_LAST_EXTERNAL)).
Proof.
  split; [reflexivity |].
  exact (resolve_schema_one_to_one four_units_are_time four_units_are_time
           BarType_repr BarType_repr
           bar_1_MINUTE_LAST_EXTERNAL bar_1_MINUTE_LAST_EXTERNAL
           OHLCV_1M OHLCV_1M eq_refl eq_refl).
Defined.

(** X3.  Only the first failing check is reported.  On an EXTERNAL bar
    type: a specification that is not time aggregated gets the time-bar
    message whatever its price type and step; a time aggregated one
    with another price type than LAST gets the price message whatever
    its step; with LAST and another step than 1 the step message; and
    with all three in order but an aggregation outside the four, the
    message that lists them. *)
Theorem resolve_reports_first_failure
    (is_time_aggregated : BarSpecification -> bool)
    (BarType_str : BarType -> string) (bar_type : BarType) :
  aggregation_source bar_type = EXTERNAL ->
  (is_time_aggregated (spec bar_type) = false ->
   databento_schema_from_nautilus_bar_type is_time_aggregated BarType_str bar_type
   = raise (ValueError
       ("Invalid bar type '" ++ BarType_str bar_type
          ++ "' (only time bars are aggregated by Databento)."))) /\
  (is_time_aggregated (spec bar_type) = true ->
   price_type (spec bar_type) <> LAST ->
   databento_schema_from_nautilus_bar_type is_time_aggregated BarType_str bar_type
   = raise (ValueError
       ("Invalid bar type '" ++ BarType_str bar_type
          ++ "' (only `LAST` price bars are aggregated by Databento)."))) /\
  (is_time_aggregated (spec bar_type) = true ->
   price_type (spec bar_type) = LAST ->
   step (spec bar_type) <> 1%Z ->
   databento_schema_from_nautilus_bar_type is_time_aggregated BarType_str bar_type
   = raise (ValueError
       ("Invalid bar type '" ++ BarType_str bar_type
          ++ "' (only a step of 1 is supported by Databento)."))) /\
  (is_time_aggregated (spec bar_type) = true ->
   price_type (spec bar_type) = LAST ->
   step (spec bar_type) = 1%Z ->
   supported_aggregation (aggregation (spec bar_type)) = false ->
   databento_schema_from_nautilus_bar_type is_time_aggregated BarType_str bar_type
   = raise (ValueError
       ("Invalid bar type '" ++ BarType_str bar_type ++ "'. "
          ++ "Use any of ['SECOND', 'MINTUE', 'HOUR', 'DAY'] time aggregations."))).
Proof.
  intros Hsrc. rewrite (resolve_external _ _ _ Hsrc).
  repeat split.
  - intros ->. reflexivity.
  - intros -> Hpt. destruct (price_type (spec bar_type));
      first [reflexivity | contradiction].
  - intros -> -> Hstep. simpl.
    destruct (Z.eqb_spec (step (spec bar_type)) 1); [contradiction | reflexivity].
  - intros -> -> -> Hagg. simpl.
    destruct (aggregation (spec bar_type)); first [discriminate Hagg | reflexivity].
Qed.

Lemma resolve_reports_first_failure_witness :
  aggregation_source
    {| spec := {| step := 5; aggregation := MINUTE; price_type := MID |};
       aggregation_source := EXTERNAL |} = EXTERNAL /\
  databento_schema_from_nautilus_bar_type four_units_are_time BarType_repr
    {| spec := {| step := 5; aggregation := MINUTE; price_type := MID |};
       aggregation_source := EXTERNAL |}
  = raise (ValueError
      "Invalid bar type 'MINUTE-5-MID-EXTERNAL' (only `LAST` price bars are aggregated by Databento).").
Proof.
  split; [reflexivity |].
  apply (proj1 (proj2 (resolve_reports_first_failure four_units_are_time
                         BarType_repr
                         {| spec := {| step := 5; aggregation := MINUTE;
                                       price_type := MID |};
                            aggregation_source := EXTERNAL |} eq_refl)));
    [reflexivity | discriminate].
Defined.

(* ------------------------------------------------------------------ *)
(** ** The decorated function: outcomes, round trips, the clock *)

Lemma string_app_inv_head (pre s1 s2 : string) :
  pre ++ s1 = pre ++ s2 -> s1 = s2.
Proof.
  induction pre as [| a pre IH]; simpl; intros H; [exact H |].
  injection H as H. now apply IH.
Qed.

Lemma string_snoc_assoc (pre : string) (c : ascii) (s : string) :
  pre ++ String c s = (pre ++ String c "") ++ s.
Proof. now rewrite app_assoc_string. Qed.

Lemma char_from_end_1_snoc (s : string) (d : ascii) :
  char_from_end 1 (s ++ String d "") = Some d.
Proof.
  unfold char_from_end. rewrite string_length_app. simpl String.length.
  replace (String.length s + 1 <? 1)%nat with false
    by (symmetry; apply Nat.ltb_ge; lia).
  replace (String.length s + 1 - 1)%nat with (String.length s + 0)%nat by lia.
  now rewrite get_app_r.
Qed.

Lemma single_digit_form_split (pre : string) (c d : ascii) :
  single_digit_form (pre ++ String c (String d ""))
  = negb (Py.isdigit c) && Py.isdigit d.
Proof.
  unfold single_digit_form.
  now rewrite char_from_end_2_app, char_from_end_1_app.
Qed.

Lemma single_digit_form_short (s : string) :
  (String.length s < 2)%nat -> single_digit_form s = false.
Proof.
  intros H. unfold single_digit_form. now rewrite char_from_end_short.
Qed.

(** [str(n)] starts with a digit when [n] is not negative. *)
Lemma str_of_int_first_digit (n : Z) :
  (0 <= n)%Z ->
  exists y, String.get 0 (Py.str_of_int n) = Some y /\ Py.isdigit y = true.
Proof.
  intros Hn. unfold Py.str_of_int.
  destruct n as [| p | p]; [eexists; split; reflexivity | | lia].
  simpl Z.to_int. simpl NilZero.string_of_int.
  destruct (Pos.to_uint p); simpl; eexists; split; reflexivity.
Qed.

(** The decorated function reads the clock only through the first
    character of [str(year)]. *)
Lemma wrapped_same_leading (year1 year2 : Z) (instrument_id : InstrumentId) :
  String.get 0 (Py.str_of_int year1) = String.get 0 (Py.str_of_int year2) ->
  map_instrumentId_wrapped year1 instrument_id
  = map_instrumentId_wrapped year2 instrument_id.
Proof.
  intros Hlead.
  destruct (Nat.lt_ge_cases (String.length (symbol instrument_id)) 2)
    as [Hlt | Hge].
  - now rewrite !wrapped_short.
  - destruct (two_chars_inv _ Hge) as (pre & c & d & Hsym).
    destruct (wrapped_on_split year1 _ _ _ _ Hsym) as (y1 & Hy1 & ->).
    destruct (wrapped_on_split year2 _ _ _ _ Hsym) as (y2 & Hy2 & ->).
    rewrite Hy1, Hy2 in Hlead. injection Hlead as ->. reflexivity.
Qed.

(** Outside the single-digit form the clock is not read at all. *)
Lemma wrapped_year_free (year1 year2 : Z) (instrument_id : InstrumentId) :
  single_digit_form (symbol instrument_id) = false ->
  map_instrumentId_wrapped year1 instrument_id
  = map_instrumentId_wrapped year2 instrument_id.
Proof.
  intros Hform.
  destruct (Nat.lt_ge_cases (String.length (symbol instrument_id)) 2)
    as [Hlt | Hge].
  - now rewrite !wrapped_short.
  - destruct (two_chars_inv _ Hge) as (pre & c & d & Hsym).
    destruct (wrapped_on_split year1 _ _ _ _ Hsym) as (y1 & Hy1 & ->).
    destruct (wrapped_on_split year2 _ _ _ _ Hsym) as (y2 & Hy2 & ->).
    rewrite Hsym, single_digit_form_split in Hform.
    destruct (Py.isdigit c); [reflexivity |].
    destruct (Py.isdigit d); [discriminate Hform | reflexivity].
Qed.

(** X4.  The decorated function returns exactly on the symbols of at
    least two characters, and the only exception it ever raises is the
    [IndexError] of the index [-2], on the shorter ones. *)
Theorem transcode_outcome (year : Z) (instrument_id : InstrumentId) :
  ((exists r, map_instrumentId_wrapped year instrument_id = ok r)
   <-> (2 <= String.length (symbol instrument_id))%nat) /\
  (forall e,
     map_instrumentId_wrapped year instrument_id = raise e ->
     e = IndexError "string index out of range" /\
     (String.length (symbol instrument_id) < 2)%nat).
Proof.
  split.
  - rewrite <- (wrapped_returns_iff year). split.
    + intros [r ->]. reflexivity.
    + destruct (map_instrumentId_wrapped year instrument_id) as [r | e];
        [intros _; now exists r | discriminate].
  - intros e He.
    destruct (Nat.lt_ge_cases (String.length (symbol instrument_id)) 2)
      as [Hlt | Hge].
    + rewrite (wrapped_short year _ Hlt) in He. injection He as <-.
      split; [reflexivity | exact Hlt].
    + apply (wrapped_returns_iff year) in Hge. rewrite He in Hge.
      discriminate Hge.
Qed.

(** X5.  Whenever the decorated function returns, the symbol of the
    result ends with the last character of the input symbol, is not
    empty, and is at most one character shorter or longer. *)
Theorem transcode_keeps_last_char
    (year : Z) (instrument_id result_id : InstrumentId) :
  map_instrumentId_wrapped year instrument_id = ok result_id ->
  char_from_end 1 (symbol result_id) = char_from_end 1 (symbol instrument_id) /\
  (1 <= String.length (symbol result_id))%nat /\
  (String.length (symbol instrument_id) - 1 <= String.length (symbol result_id)
   <= String.length (symbol instrument_id) + 1)%nat.
Proof.
  intros Hr.
  assert (Hok : is_ok (map_instrumentId_wrapped year instrument_id) = true)
    by (rewrite Hr; reflexivity).
  apply wrapped_returns_iff in Hok.
  destruct (two_chars_inv _ Hok) as (pre & c & d & Hsym).
  destruct (wrapped_on_split year _ _ _ _ Hsym) as (y & _ & Hr').
  rewrite Hr' in Hr. injection Hr as <-. simpl symbol.
  rewrite Hsym, char_from_end_1_app.
  destruct (Py.isdigit c); [| destruct (Py.isdigit d)].
  - rewrite char_from_end_1_snoc, !string_length_app. simpl. repeat split; lia.
  - rewrite (string_snoc_assoc pre c), char_from_end_1_app, !string_length_app.
    simpl. repeat split; lia.
  - rewrite char_from_end_1_app, !string_length_app. simpl. repeat split; lia.
Qed.

Lemma transcode_keeps_last_char_witness :
  map_instrumentId_wrapped 2024 {| symbol := "ESH24"; venue := "GLBX" |}
    = ok {| symbol := "ESH4"; venue := "CME" |} /\
  char_from_end 1 "ESH4" = char_from_end 1 "ESH24".
Proof.
  split; [reflexivity |].
  exact (proj1 (transcode_keeps_last_char 2024
                  {| symbol := "ESH24"; venue := "GLBX" |}
                  {| symbol := "ESH4"; venue := "CME" |} eq_refl)).
Defined.

(** X6.  Round trip from the single-digit form: in a year that is not
    negative, mapping an identifier whose symbol ends with a non-digit
    and a digit, and mapping the result again (in any year), gives the
    identifier back, symbol and venue. *)
Theorem transcode_round_trip_single_digit
    (year1 year2 : Z) (instrument_id : InstrumentId) (pre : string) (c d : ascii) :
  symbol instrument_id = pre ++ String c (String d "") ->
  Py.isdigit c = false ->
  Py.isdigit d = true ->
  (0 <= year1)%Z ->
  map_twice year1 year2 instrument_id = ok instrument_id.
Proof.
  intros Hsym Hc Hd Hyear. unfold map_twice.
  destruct (wrapped_on_split year1 _ _ _ _ Hsym) as (y & Hy & ->).
  destruct (str_of_int_first_digit year1 Hyear) as (y' & Hy' & Hdigit).
  rewrite Hy in Hy'. injection Hy' as <-.
  rewrite Hc, Hd. simpl bind.
  destruct (wrapped_on_split year2
              {| symbol := pre ++ String c (String y (String d ""));
                 venue := swap_venue (venue instrument_id) |}
              (pre ++ String c "") y d) as (y2 & _ & ->).
  { simpl. apply string_snoc_assoc. }
  rewrite Hdigit. simpl venue. rewrite swap_venue_involutive.
  rewrite <- string_snoc_assoc, <- Hsym. destruct instrument_id; reflexivity.
Qed.

Lemma transcode_round_trip_single_digit_witness :
  symbol {| symbol := "ESH4"; venue := "CME" |} = "ES" ++ String "H" (String "4" "") /\
  Py.isdigit "H" = false /\
  Py.isdigit "4" = true /\
  (0 <= 2024)%Z /\
  map_twice 2024 2031 {| symbol := "ESH4"; venue := "CME" |}
  = ok {| symbol := "ESH4"; venue := "CME" |}.
Proof.
  split; [reflexivity |]. split; [reflexivity |]. split; [reflexivity |].
  split; [lia |].
  exact (transcode_round_trip_single_digit 2024 2031
           {| symbol := "ESH4"; venue := "CME" |} "ES" "H" "4"
           eq_refl eq_refl eq_refl ltac:(lia)).
Defined.

(** X7.  From the two-digit form the round trip loses the decade: on a
    symbol that ends with a non-digit and two digits, two calls in a
    row put the first character of [str(year2)] in the place of the
    first of the two digits, so the identifier comes back exactly when
    that digit is this character. *)
Theorem transcode_round_trip_two_digit
    (year1 year2 : Z) (instrument_id : InstrumentId)
    (pre : string) (c t d : ascii) :
  symbol instrument_id = pre ++ String c (String t (String d "")) ->
  Py.isdigit c = false ->
  Py.isdigit t = true ->
  Py.isdigit d = true ->
  exists y,
    String.get 0 (Py.str_of_int year2) = Some y /\
    map_twice year1 year2 instrument_id
    = ok {| symbol := pre ++ String c (String y (String d ""));
            venue := venue instrument_id |} /\
    (map_twice year1 year2 instrument_id = ok instrument_id <-> t = y).
Proof.
  intros Hsym Hc Ht Hd. unfold map_twice.
  destruct (wrapped_on_split year1 instrument_id (pre ++ String c "") t d)
    as (y1 & _ & ->).
  { rewrite Hsym. apply string_snoc_assoc. }
  rewrite Ht. simpl bind.
  destruct (wrapped_on_split year2
              {| symbol := (pre ++ String c "") ++ String d "";
                 venue := swap_venue (venue instrument_id) |} pre c d)
    as (y & Hy & ->).
  { simpl. now rewrite <- string_snoc_assoc. }
  rewrite Hc, Hd. simpl venue. rewrite swap_venue_involutive.
  exists y. split; [exact Hy |]. split; [reflexivity |].
  destruct instrument_id as [s v]. simpl in *. subst s. split.
  - intros H. injection H as H. apply string_app_inv_head in H.
    injection H as H. now symmetry.
  - intros ->. reflexivity.
Qed.

(** X7 on ESH34.GLBX: two calls in 2024 give ESH24.GLBX. *)
Lemma transcode_round_trip_two_digit_witness :
  symbol {| symbol := "ESH34"; venue := "GLBX" |}
    = "ES" ++ String "H" (String "3" (String "4" "")) /\
  Py.isdigit "H" = false /\
  Py.isdigit "3" = true /\
  Py.isdigit "4" = true /\
  map_twice 2024 2024 {| symbol := "ESH34"; venue := "GLBX" |}
  = ok {| symbol := "ESH24"; venue := "GLBX" |}.
Proof.
  split; [reflexivity |]. split; [reflexivity |]. split; [reflexivity |].
  split; [reflexivity |].
  destruct (transcode_round_trip_two_digit 2024 2024
              {| symbol := "ESH34"; venue := "GLBX" |} "ES" "H" "3" "4"
              eq_refl eq_refl eq_refl eq_refl) as (y & Hy & Hr & _).
  vm_compute in Hy. injection Hy as Hy. subst y. exact Hr.
Defined.

(** X8.  On a symbol of at least two characters whose last two
    characters are not digits, two calls in a row, in any years, give
    the identifier back. *)
Theorem transcode_twice_no_digit
    (year1 year2 : Z) (instrument_id : InstrumentId) (pre : string) (c d : ascii) :
  symbol instrument_id = pre ++ String c (String d "") ->
  Py.isdigit c = false ->
  Py.isdigit d = false ->
  map_twice year1 year2 instrument_id = ok instrument_id.
Proof.
  intros Hsym Hc Hd. unfold map_twice.
  destruct (wrapped_on_split year1 _ _ _ _ Hsym) as (y1 & _ & ->).
  rewrite Hc, Hd. simpl bind.
  destruct (wrapped_on_split year2
              {| symbol := pre ++ String c (String d "");
                 venue := swap_venue (venue instrument_id) |} pre c d eq_refl)
    as (y2 & _ & ->).
  rewrite Hc, Hd. simpl venue. rewrite swap_venue_involutive, <- Hsym.
  destruct instrument_id; reflexivity.
Qed.

Lemma transcode_twice_no_digit_witness :
  symbol {| symbol := "SPY"; venue := "XNAS" |} = "S" ++ String "P" (String "Y" "") /\
  Py.isdigit "P" = false /\
  Py.isdigit "Y" = false /\
  map_twice 2024 2025 {| symbol := "SPY"; venue := "XNAS" |}
  = ok {| symbol := "SPY"; venue := "XNAS" |}.
Proof.
  split; [reflexivity |]. split; [reflexivity |]. split; [reflexivity |].
  exact (transcode_twice_no_digit 2024 2025
           {| symbol := "SPY"; venue := "XNAS" |} "S" "P" "Y"
           eq_refl eq_refl eq_refl).
Defined.

(** X9.  A symbol with digits in both positions before its last
    character loses one of them at each call: two calls in a row take
    both away and do not give the identifier back. *)
Theorem transcode_twice_strips_two_digits
    (year1 year2 : Z) (instrument_id : InstrumentId)
    (pre : string) (b c d : ascii) :
  symbol instrument_id = pre ++ String b (String c (String d "")) ->
  Py.isdigit b = true ->
  Py.isdigit c = true ->
  map_twice year1 year2 instrument_id
  = ok {| symbol := pre ++ String d ""; venue := venue instrument_id |} /\
  map_twice year1 year2 instrument_id <> ok instrument_id.
Proof.
  intros Hsym Hb Hc. unfold map_twice.
  destruct (wrapped_on_split year1 instrument_id (pre ++ String b "") c d)
    as (y1 & _ & ->).
  { rewrite Hsym. apply string_snoc_assoc. }
  rewrite Hc. simpl bind.
  destruct (wrapped_on_split year2
              {| symbol := (pre ++ String b "") ++ String d "";
                 venue := swap_venue (venue instrument_id) |} pre b d)
    as (y2 & _ & ->).
  { simpl. now rewrite <- string_snoc_assoc. }
  rewrite Hb. simpl venue. rewrite swap_venue_involutive.
  split; [reflexivity |].
  intros H. injection H as H. apply (f_equal symbol) in H. simpl in H.
  rewrite Hsym in H. apply (f_equal String.length) in H.
  rewrite !string_length_app in H. simpl in H. lia.
Qed.

Lemma transcode_twice_strips_two_digits_witness :
  symbol {| symbol := "ESH024"; venue := "CME" |}
    = "ESH" ++ String "0" (String "2" (String "4" "")) /\
  Py.isdigit "0" = true /\
  Py.isdigit "2" = true /\
  map_twice 2024 2024 {| symbol := "ESH024"; venue := "CME" |}
  = ok {| symbol := "ESH4"; venue := "CME" |}.
Proof.
  split; [reflexivity |]. split; [reflexivity |]. split; [reflexivity |].
  exact (proj1 (transcode_twice_strips_two_digits 2024 2024
                  {| symbol := "ESH024"; venue := "CME" |} "ESH" "0" "2" "4"
                  eq_refl eq_refl eq_refl)).
Defined.

(** X10.  The clock is read only through the first character of
    [str(year)], and only for symbols in the single-digit form: two
    years whose decimal forms start alike give the same outcome on
    every identifier, and on an identifier outside that form all years
    give the same outcome. *)
Theorem transcode_year_dependence
    (year1 year2 : Z) (instrument_id : InstrumentId) :
  (String.get 0 (Py.str_of_int year1) = String.get 0 (Py.str_of_int year2) ->
   map_instrumentId_wrapped year1 instrument_id
   = map_instrumentId_wrapped year2 instrument_id) /\
  (single_digit_form (symbol instrument_id) = false ->
   map_instrumentId_wrapped year1 instrument_id
   = map_instrumentId_wrapped year2 instrument_id).
Proof.
  split; [apply wrapped_same_leading | apply wrapped_year_free].
Qed.

Lemma transcode_year_dependence_witness :
  String.get 0 (Py.str_of_int 2024) = String.get 0 (Py.str_of_int 2999) /\
  map_instrumentId_wrapped 2024 {| symbol := "ESH4"; venue := "CME" |}
  = map_instrumentId_wrapped 2999 {| symbol := "ESH4"; venue := "CME" |}.
Proof.
  split; [reflexivity |].
  exact (proj1 (transcode_year_dependence 2024 2999
                  {| symbol := "ESH4"; venue := "CME" |}) eq_refl).
Defined.

(** X11.  The symbol rewrite does not look at the venue, and the venue
    rewrite looks neither at the symbol nor at the clock: with another
    venue the call raises or returns alike, with the same symbol; and
    every returned identifier carries the venue of the venue table. *)
Theorem transcode_symbol_venue_independent
    (year : Z) (s v1 v2 : string) :
  (r <- map_instrumentId_wrapped year {| symbol := s; venue := v1 |} ;;
   ok (symbol r))
  = (r <- map_instrumentId_wrapped year {| symbol := s; venue := v2 |} ;;
     ok (symbol r)) /\
  (r <- map_instrumentId_wrapped year {| symbol := s; venue := v1 |} ;;
   ok (venue r))
  = (_ <- map_instrumentId_wrapped year {| symbol := s; venue := v1 |} ;;
     ok (swap_venue v1)).
Proof.
  destruct (Nat.lt_ge_cases (String.length s) 2) as [Hlt | Hge].
  - rewrite !wrapped_short by exact Hlt. split; reflexivity.
  - destruct (two_chars_inv _ Hge) as (pre & c & d & Hsym).
    destruct (wrapped_on_split year {| symbol := s; venue := v1 |} pre c d Hsym)
      as (y1 & Hy1 & ->).
    destruct (wrapped_on_split year {| symbol := s; venue := v2 |} pre c d Hsym)
      as (y2 & Hy2 & ->).
    rewrite Hy1 in Hy2. injection Hy2 as <-. split; reflexivity.
Qed.

(* ------------------------------------------------------------------ *)
(** ** The cache wrapper: counters, size, order *)

Section LruCacheMoreFacts.

Variables K V : Type.
Variable K_eqb : K -> K -> bool.
Hypothesis K_eqb_eq : forall a b, K_eqb a b = true <-> a = b.
Variable maxsize : nat.
Variable user_function : K -> result V.

Lemma unlink_Forall (P : K * V -> Prop) (key : K) (l : list (K * V)) :
  Forall P l -> Forall P (LruCache.unlink K_eqb key l).
Proof.
  induction l as [| [k v] l IH]; simpl; intros H; [constructor |].
  inversion H; subst. destruct (K_eqb key k); [assumption |].
  constructor; [assumption | now apply IH].
Qed.

(** A property of the links that holds of every newly stored result is
    kept by a call. *)
Lemma call_Forall (P : K * V -> Prop) (key : K) (st : LruCache.state K V) :
  Forall P (LruCache.links st) ->
  (forall r, user_function key = ok r -> P (key, r)) ->
  Forall P (LruCache.links (snd (LruCache.call K_eqb maxsize user_function key st))).
Proof.
  intros Hall Hnew. unfold LruCache.call.
  destruct (LruCache.cache_get K_eqb key (LruCache.links st)) as [r |] eqn:Hget.
  - cbn [snd LruCache.links]. apply Forall_app. split.
    + now apply unlink_Forall.
    + constructor; [| constructor].
      apply (proj1 (Forall_forall _ _) Hall).
      now apply (cache_get_In _ _ _ K_eqb_eq).
  - destruct (user_function key) as [r | e] eqn:Hr; cbn [snd LruCache.links];
      [| exact Hall].
    apply Forall_app. split; [| constructor; [now apply Hnew | constructor]].
    destruct (maxsize <=? List.length (LruCache.links st))%nat; [| exact Hall].
    destruct (LruCache.links st); [constructor | now inversion Hall].
Qed.

(** Each call counts once, as a hit or as a miss. *)
Lemma call_counts (key : K) (st : LruCache.state K V) :
  (LruCache.hits (snd (LruCache.call K_eqb maxsize user_function key st))
   + LruCache.misses (snd (LruCache.call K_eqb maxsize user_function key st))
   = S (LruCache.hits st + LruCache.misses st))%nat.
Proof.
  unfold LruCache.call.
  destruct (LruCache.cache_get K_eqb key (LruCache.links st));
    [simpl; lia |].
  destruct (user_function key); simpl; lia.
Qed.

(** A call never takes a link away without putting one in, and puts in
    one at most. *)
Lemma call_size (key : K) (st : LruCache.state K V) :
  (1 <= maxsize)%nat ->
  (List.length (LruCache.links st)
   <= List.length
        (LruCache.links (snd (LruCache.call K_eqb maxsize user_function key st)))
   <= S (List.length (LruCache.links st)))%nat.
Proof.
  intros Hpos. unfold LruCache.call.
  destruct (LruCache.cache_get K_eqb key (LruCache.links st)) as [r |] eqn:Hget.
  - cbn [snd LruCache.links]. rewrite List.length_app. simpl.
    pose proof (unlink_length _ _ _ _ _ _ Hget). lia.
  - destruct (user_function key) as [r | e]; cbn [snd LruCache.links]; [| lia].
    rewrite List.length_app. simpl.
    destruct (Nat.leb_spec maxsize (List.length (LruCache.links st))).
    + destruct (LruCache.links st); simpl in *; lia.
    + lia.
Qed.

Lemma unlink_Permutation (key : K) (l : list (K * V)) (r : V) :
  LruCache.cache_get K_eqb key l = Some r ->
  Permutation ((key, r) :: LruCache.unlink K_eqb key l) l.
Proof.
  induction l as [| [k v] l IH]; simpl; [discriminate |].
  destruct (K_eqb key k) eqn:E.
  - intros H. injection H as ->. apply K_eqb_eq in E. subst k. reflexivity.
  - intros H. rewrite perm_swap. constructor. now apply IH.
Qed.

(** A hit only moves its link: the links are the same as before, in
    another order. *)
Lemma call_hit_Permutation (key : K) (st : LruCache.state K V) (r : V) :
  LruCache.cache_get K_eqb key (LruCache.links st) = Some r ->
  Permutation
    (LruCache.links (snd (LruCache.call K_eqb maxsize user_function key st)))
    (LruCache.links st).
Proof.
  intros Hget. unfold LruCache.call. rewrite Hget. cbn [snd LruCache.links].
  apply Permutation_trans with ((key, r) :: LruCache.unlink K_eqb key (LruCache.links st)).
  - symmetry. apply Permutation_cons_append.
  - now apply unlink_Permutation.
Qed.

(** A call that returned has its key and result in the newest link. *)
Lemma call_links_last (key : K) (st : LruCache.state K V) (r : V) :
  fst (LruCache.call K_eqb maxsize user_function key st) = ok r ->
  exists rest,
    LruCache.links (snd (LruCache.call K_eqb maxsize user_function key st))
    = (rest ++ [(key, r)])%list.
Proof.
  unfold LruCache.call.
  destruct (LruCache.cache_get K_eqb key (LruCache.links st)) as [r0 |].
  - cbn [fst snd LruCache.links]. intros H. injection H as ->.
    eexists. reflexivity.
  - destruct (user_function key) as [r0 | e]; cbn [fst snd LruCache.links];
      intros H; [| discriminate H].
    injection H as ->. eexists. reflexivity.
Qed.

(** A call on a key outside the newest links [suf], fewer than
    [maxsize] of them, leaves them in place, whether it hits, misses or
    raises, with at most the link of its key after them. *)
Lemma call_suffix_any (key : K) (st : LruCache.state K V)
      (rest suf : list (K * V)) :
  LruCache.links st = (rest ++ suf)%list ->
  ~ In key (map fst suf) ->
  (List.length suf < maxsize)%nat ->
  exists rest' suf1,
    LruCache.links (snd (LruCache.call K_eqb maxsize user_function key st))
    = (rest' ++ suf ++ suf1)%list /\
    (suf1 = [] \/ exists r', suf1 = [(key, r')]).
Proof.
  intros Hlinks Hkey Hsuf. unfold LruCache.call.
  destruct (LruCache.cache_get K_eqb key (LruCache.links st)) as [r0 |] eqn:Hget.
  - cbn [snd LruCache.links]. exists (LruCache.unlink K_eqb key rest), [(key, r0)].
    split; [| right; now exists r0].
    rewrite Hlinks, (unlink_app _ _ _ K_eqb_eq _ _ _ Hkey).
    now rewrite <- app_assoc.
  - destruct (user_function key) as [r | e]; cbn [snd LruCache.links].
    + destruct (Nat.leb_spec maxsize (List.length (LruCache.links st)))
        as [Hfull | Hfree].
      * rewrite Hlinks in *. rewrite List.length_app in Hfull.
        destruct rest as [| a rest0]; simpl in *; [lia |].
        exists rest0, [(key, r)]. split; [| right; now exists r].
        now rewrite <- app_assoc.
      * exists rest, [(key, r)]. split; [| right; now exists r].
        rewrite Hlinks. now rewrite <- app_assoc.
    + exists rest, []. split; [| now left]. now rewrite app_nil_r.
Qed.

End LruCacheMoreFacts.

(* ------------------------------------------------------------------ *)
(** ** The cached function over a history of calls *)

Lemma map_instrumentId_same_leading (year1 year2 : Z)
      (instrument_id : InstrumentId) (st : cache) :
  String.get 0 (Py.str_of_int year1) = String.get 0 (Py.str_of_int year2) ->
  map_instrumentId year1 instrument_id st = map_instrumentId year2 instrument_id st.
Proof.
  intros H. unfold map_instrumentId, LruCache.call.
  now rewrite (wrapped_same_leading year1 year2 instrument_id H).
Qed.

Lemma run_calls_coherent_leading (year : Z) (calls : list (Z * InstrumentId))
      (st : cache) :
  Forall (fun c => String.get 0 (Py.str_of_int (fst c))
                   = String.get 0 (Py.str_of_int year)) calls ->
  coherent_at year st -> coherent_at year (run_calls calls st).
Proof.
  revert st. induction calls as [| [y k] calls IH]; simpl; intros st Hall Hco;
    [exact Hco |].
  inversion Hall as [| ? ? Hy Hall']; subst. simpl in Hy.
  apply IH; [exact Hall' |].
  rewrite (map_instrumentId_same_leading y year k st Hy).
  now apply map_instrumentId_coherent.
Qed.

Lemma run_calls_keys_long (calls : list (Z * InstrumentId)) (st : cache) :
  keys_long st -> keys_long (run_calls calls st).
Proof.
  revert st. induction calls as [| [y k] calls IH]; simpl; intros st H;
    [exact H |].
  apply IH. unfold keys_long, map_instrumentId.
  apply call_Forall; [exact InstrumentId_eqb_eq | exact H |].
  intros r Hr. simpl. apply (wrapped_returns_iff y). now rewrite Hr.
Qed.

Lemma run_calls_computed_in (years : list Z) (calls : list (Z * InstrumentId))
      (st : cache) :
  Forall (fun c => In (fst c) years) calls ->
  computed_in years st -> computed_in years (run_calls calls st).
Proof.
  revert st. induction calls as [| [y k] calls IH]; simpl; intros st Hall H;
    [exact H |].
  inversion Hall as [| ? ? Hy Hall']; subst. simpl in Hy.
  apply IH; [exact Hall' |]. unfold computed_in, map_instrumentId.
  apply call_Forall; [exact InstrumentId_eqb_eq | exact H |].
  intros r Hr. exists y. split; assumption.
Qed.

Lemma run_calls_size (calls : list (Z * InstrumentId)) (st : cache) :
  (List.length (LruCache.links st)
   <= List.length (LruCache.links (run_calls calls st))
   <= List.length (LruCache.links st) + List.length calls)%nat.
Proof.
  revert st. induction calls as [| [y k] calls IH]; simpl; intros st; [lia |].
  specialize (IH (snd (map_instrumentId y k st))).
  pose proof (call_size _ _ InstrumentId_eqb 20 (map_instrumentId_wrapped y) k st
                ltac:(lia)) as Hstep.
  change (LruCache.call InstrumentId_eqb 20 (map_instrumentId_wrapped y) k st)
    with (map_instrumentId y k st) in Hstep.
  destruct IH as [I1 I2]. destruct Hstep as [H1 H2]. split.
  - exact (Nat.le_trans _ _ _ H1 I1).
  - eapply Nat.le_trans; [exact I2 |].
    eapply Nat.le_trans; [apply Nat.add_le_mono_r; exact H2 |].
    rewrite Nat.add_succ_r. apply Nat.le_refl.
Qed.

(** Calls on pairwise different keys leave the newest links [suf] in
    place while there is room for all of them. *)
Lemma run_calls_keeps_suffix (calls : list (Z * InstrumentId)) :
  forall (st : cache) (rest suf : list (InstrumentId * InstrumentId)),
    LruCache.links st = (rest ++ suf)%list ->
    NoDup (map fst suf ++ map snd calls)%list ->
    (List.length suf + List.length calls <= 20)%nat ->
    exists rest' suf',
      LruCache.links (run_calls calls st) = (rest' ++ suf ++ suf')%list.
Proof.
  induction calls as [| [year k] calls IH]; simpl;
    intros st rest suf Hlinks Hnd Hlen.
  - exists rest, []. now rewrite app_nil_r.
  - assert (Hnotin : ~ In k (map fst suf)).
    { intros Hin. apply (NoDup_remove_2 _ _ _ Hnd).
      apply in_or_app. now left. }
    destruct (call_suffix_any _ _ _ InstrumentId_eqb_eq 20
                (map_instrumentId_wrapped year) k st rest suf
                Hlinks Hnotin ltac:(lia))
      as (rest1 & suf1 & Hlinks1 & [-> | [r1 ->]]).
    + rewrite app_nil_r in Hlinks1.
      apply (IH _ rest1 suf Hlinks1); [| lia].
      now apply NoDup_remove_1 in Hnd.
    + destruct (IH (snd (map_instrumentId year k st)) rest1
                   (suf ++ [(k, r1)])%list) as (rest2 & suf2 & Hfin).
      * exact Hlinks1.
      * rewrite map_app, <- app_assoc. exact Hnd.
      * rewrite List.length_app. simpl. lia.
      * exists rest2, ((k, r1) :: suf2). rewrite Hfin, <- app_assoc. reflexivity.
Qed.

(** X12.  The two counters of the cache count the calls: after any
    sequence of calls their sum has grown by the number of calls,
    hits, misses and raising calls alike. *)
Theorem cache_counts_every_call (calls : list (Z * InstrumentId)) (st : cache) :
  (LruCache.hits (run_calls calls st) + LruCache.misses (run_calls calls st)
   = LruCache.hits st + LruCache.misses st + List.length calls)%nat.
Proof.
  revert st. induction calls as [| [y k] calls IH]; simpl; intros st; [lia |].
  rewrite IH. unfold map_instrumentId. rewrite call_counts. lia.
Qed.

(** X13.  The cache never shrinks: over any sequence of calls the
    number of stored results does not go down and goes up by at most
    the number of calls, up to the bound of 20. *)
Theorem cache_never_shrinks (calls : list (Z * InstrumentId)) (st : cache) :
  cache_ok st ->
  (List.length (LruCache.links st)
   <= List.length (LruCache.links (run_calls calls st))
   <= Nat.min 20 (List.length (LruCache.links st) + List.length calls))%nat.
Proof.
  intros Hok. pose proof (run_calls_size calls st) as Hsize.
  destruct (run_calls_cache_ok calls st Hok) as [_ Hbound]. lia.
Qed.

Lemma cache_never_shrinks_witness :
  cache_ok LruCache.empty /\
  (List.length (LruCache.links
      (run_calls (map (pair 2024%Z) (sample_ids 0 21)) LruCache.empty)) <= 20)%nat.
Proof.
  assert (Hempty : cache_ok LruCache.empty).
  { split; [constructor | simpl; lia]. }
  split; [exact Hempty |].
  pose proof (cache_never_shrinks (map (pair 2024%Z) (sample_ids 0 21))
                LruCache.empty Hempty) as H.
  lia.
Defined.

(** X14.  A hit evicts nothing: after a call on a cached identifier
    the cache holds the same links as before, reordered, with the link
    of that identifier as the newest. *)
Theorem cache_hit_keeps_entries
    (year : Z) (instrument_id r : InstrumentId) (st : cache) :
  LruCache.cached InstrumentId_eqb instrument_id st = Some r ->
  Permutation (LruCache.links (snd (map_instrumentId year instrument_id st)))
              (LruCache.links st) /\
  exists rest,
    LruCache.links (snd (map_instrumentId year instrument_id st))
    = (rest ++ [(instrument_id, r)])%list.
Proof.
  intros Hget. unfold LruCache.cached in Hget. split.
  - unfold map_instrumentId.
    now apply (call_hit_Permutation _ _ _ InstrumentId_eqb_eq) with (r := r).
  - unfold map_instrumentId, LruCache.call. rewrite Hget.
    eexists. reflexivity.
Qed.

Lemma cache_hit_keeps_entries_witness :
  LruCache.cached InstrumentId_eqb {| symbol := "A3H5"; venue := "GLBX" |}
    (run_calls (map (pair 2024%Z) (sample_ids 0 5)) LruCache.empty)
  = Some {| symbol := "A3H25"; venue := "CME" |} /\
  Permutation
    (LruCache.links
       (snd (map_instrumentId 2031 {| symbol := "A3H5"; venue := "GLBX" |}
               (run_calls (map (pair 2024%Z) (sample_ids 0 5)) LruCache.empty))))
    (LruCache.links (run_calls (map (pair 2024%Z) (sample_ids 0 5)) LruCache.empty)).
Proof.
  split; [reflexivity |].
  exact (proj1 (cache_hit_keeps_entries 2031
                  {| symbol := "A3H5"; venue := "GLBX" |}
                  {| symbol := "A3H25"; venue := "CME" |}
                  (run_calls (map (pair 2024%Z) (sample_ids 0 5)) LruCache.empty)
                  eq_refl)).
Defined.

(** X15.  An identifier whose symbol is shorter than two characters is
    never cached: after any history of calls from the empty cache, a
    call on it raises [IndexError] again and leaves the stored results
    as they were. *)
Theorem cache_never_holds_short_symbol
    (calls : list (Z * InstrumentId)) (year : Z) (instrument_id : InstrumentId) :
  (String.length (symbol instrument_id) < 2)%nat ->
  LruCache.cached InstrumentId_eqb instrument_id (run_calls calls LruCache.empty)
    = None /\
  fst (map_instrumentId year instrument_id (run_calls calls LruCache.empty))
    = raise (IndexError "string index out of range") /\
  LruCache.links
    (snd (map_instrumentId year instrument_id (run_calls calls LruCache.empty)))
    = LruCache.links (run_calls calls LruCache.empty).
Proof.
  intros Hlen.
  assert (Hmiss : LruCache.cached InstrumentId_eqb instrument_id
                    (run_calls calls LruCache.empty) = None).
  { destruct (LruCache.cached InstrumentId_eqb instrument_id
                (run_calls calls LruCache.empty)) as [r |] eqn:Hget;
      [| reflexivity].
    apply (cache_get_In _ _ _ InstrumentId_eqb_eq) in Hget.
    assert (Hlong : keys_long (run_calls calls LruCache.empty))
      by (apply run_calls_keys_long; constructor).
    apply (proj1 (Forall_forall _ _) Hlong) in Hget. simpl in Hget. lia. }
  split; [exact Hmiss |].
  unfold map_instrumentId, LruCache.call. unfold LruCache.cached in Hmiss.
  rewrite Hmiss, (wrapped_short year _ Hlen). split; reflexivity.
Qed.

Lemma cache_never_holds_short_symbol_witness :
  (String.length (symbol {| symbol := "4"; venue := "CME" |}) < 2)%nat /\
  fst (map_instrumentId 2024 {| symbol := "4"; venue := "CME" |}
         (run_calls [(2024%Z, {| symbol := "4"; venue := "CME" |});
                     (2024%Z, {| symbol := "ESH4"; venue := "CME" |})]
                    LruCache.empty))
  = raise (IndexError "string index out of range").
Proof.
  split; [simpl; lia |].
  exact (proj1 (proj2 (cache_never_holds_short_symbol
                         [(2024%Z, {| symbol := "4"; venue := "CME" |});
                          (2024%Z, {| symbol := "ESH4"; venue := "CME" |})]
                         2024 {| symbol := "4"; venue := "CME" |}
                         ltac:(simpl; lia)))).
Defined.

(** X16.  Within years whose decimal forms start with the same
    character the cache cannot be told from the decorated function:
    after any history of calls from the empty cache, all made in such
    years, a call returns or raises exactly what the decorated function
    does at the present year. *)
Theorem cache_transparent_same_leading_digit
    (calls : list (Z * InstrumentId)) (year : Z) (instrument_id : InstrumentId) :
  Forall (fun c => String.get 0 (Py.str_of_int (fst c))
                   = String.get 0 (Py.str_of_int year)) calls ->
  fst (map_instrumentId year instrument_id (run_calls calls LruCache.empty))
  = map_instrumentId_wrapped year instrument_id.
Proof.
  intros Hall. apply map_instrumentId_coherent.
  apply run_calls_coherent_leading; [exact Hall | apply coherent_at_empty].
Qed.

Lemma cache_transparent_same_leading_digit_witness :
  Forall (fun c => String.get 0 (Py.str_of_int (fst c))
                   = String.get 0 (Py.str_of_int 2031))
         [(2024%Z, {| symbol := "ESH4"; venue := "CME" |});
          (2029%Z, {| symbol := "SPY"; venue := "GLBX" |})] /\
  fst (map_instrumentId 2031 {| symbol := "ESH4"; venue := "CME" |}
         (run_calls [(2024%Z, {| symbol := "ESH4"; venue := "CME" |});
                     (2029%Z, {| symbol := "SPY"; venue := "GLBX" |})]
                    LruCache.empty))
  = map_instrumentId_wrapped 2031 {| symbol := "ESH4"; venue := "CME" |}.
Proof.
  assert (H : Forall (fun c => String.get 0 (Py.str_of_int (fst c))
                               = String.get 0 (Py.str_of_int 2031))
                [(2024%Z, {| symbol := "ESH4"; venue := "CME" |});
                 (2029%Z, {| symbol := "SPY"; venue := "GLBX" |})]).
  { repeat constructor. }
  split; [exact H |].
  exact (cache_transparent_same_leading_digit _ 2031
           {| symbol := "ESH4"; venue := "CME" |} H).
Defined.

(** X17.  A stale result can only concern the single-digit form: on an
    identifier whose symbol is not of that form, after any history of
    calls from the empty cache, made in whatever years, a call returns
    or raises exactly what the decorated function does at the present
    year. *)
Theorem cache_stale_only_single_digit_form
    (calls : list (Z * InstrumentId)) (year : Z) (instrument_id : InstrumentId) :
  single_digit_form (symbol instrument_id) = false ->
  fst (map_instrumentId year instrument_id (run_calls calls LruCache.empty))
  = map_instrumentId_wrapped year instrument_id.
Proof.
  intros Hform.
  assert (Hcomp : computed_in (map fst calls) (run_calls calls LruCache.empty)).
  { apply run_calls_computed_in; [| constructor].
    apply Forall_forall. intros c Hc. now apply in_map. }
  unfold map_instrumentId, LruCache.call.
  destruct (LruCache.cache_get InstrumentId_eqb instrument_id
              (LruCache.links (run_calls calls LruCache.empty)))
    as [r |] eqn:Hget.
  - apply (cache_get_In _ _ _ InstrumentId_eqb_eq) in Hget.
    destruct (proj1 (Forall_forall _ _) Hcomp _ Hget) as (y & _ & Hy).
    simpl in Hy. cbn [fst]. rewrite <- Hy. now apply wrapped_year_free.
  - destruct (map_instrumentId_wrapped year instrument_id); reflexivity.
Qed.

Lemma cache_stale_only_single_digit_form_witness :
  single_digit_form (symbol {| symbol := "ESH24"; venue := "GLBX" |}) = false /\
  fst (map_instrumentId 2024 {| symbol := "ESH24"; venue := "GLBX" |}
         (run_calls [(1999%Z, {| symbol := "ESH24"; venue := "GLBX" |})]
                    LruCache.empty))
  = map_instrumentId_wrapped 2024 {| symbol := "ESH24"; venue := "GLBX" |}.
Proof.
  split; [reflexivity |].
  exact (cache_stale_only_single_digit_form
           [(1999%Z, {| symbol := "ESH24"; venue := "GLBX" |})] 2024
           {| symbol := "ESH24"; venue := "GLBX" |} eq_refl).
Defined.

(** X18.  Whatever the cached function returns, after any history of
    calls from the empty cache, is what the decorated function returns
    on that identifier at the present year or at the year of one of
    the earlier calls; in particular its venue is that of the venue
    table. *)
Theorem cache_returns_computed_results
    (calls : list (Z * InstrumentId)) (year : Z)
    (instrument_id r : InstrumentId) :
  fst (map_instrumentId year instrument_id (run_calls calls LruCache.empty))
    = ok r ->
  (exists y, (y = year \/ In y (map fst calls)) /\
             map_instrumentId_wrapped y instrument_id = ok r) /\
  venue r = swap_venue (venue instrument_id).
Proof.
  intros Hr.
  assert (Hy : exists y, (y = year \/ In y (map fst calls)) /\
                         map_instrumentId_wrapped y instrument_id = ok r).
  { assert (Hcomp : computed_in (map fst calls) (run_calls calls LruCache.empty)).
    { apply run_calls_computed_in; [| constructor].
      apply Forall_forall. intros c Hc. now apply in_map. }
    unfold map_instrumentId, LruCache.call in Hr.
    destruct (LruCache.cache_get InstrumentId_eqb instrument_id
                (LruCache.links (run_calls calls LruCache.empty)))
      as [r0 |] eqn:Hget.
    - cbn [fst] in Hr. injection Hr as ->.
      apply (cache_get_In _ _ _ InstrumentId_eqb_eq) in Hget.
      destruct (proj1 (Forall_forall _ _) Hcomp _ Hget) as (y & Hin & Hy).
      exists y. split; [now right | exact Hy].
    - exists year. split; [now left |].
      destruct (map_instrumentId_wrapped year instrument_id); cbn [fst] in Hr;
        [exact Hr | discriminate Hr]. }
  split; [exact Hy |].
  destruct Hy as (y & _ & Hy).
  assert (Hok : is_ok (map_instrumentId_wrapped y instrument_id) = true)
    by (rewrite Hy; reflexivity).
  apply wrapped_returns_iff in Hok.
  destruct (two_chars_inv _ Hok) as (pre & c & d & Hsym).
  destruct (wrapped_on_split y _ _ _ _ Hsym) as (y' & _ & Hr').
  rewrite Hr' in Hy. injection Hy as <-. reflexivity.
Qed.

Lemma cache_returns_computed_results_witness :
  fst (map_instrumentId 2024 {| symbol := "ESH4"; venue := "CME" |}
         (run_calls [(1999%Z, {| symbol := "ESH4"; venue := "CME" |})]
                    LruCache.empty))
    = ok {| symbol := "ESH14"; venue := "GLBX" |} /\
  exists y, (y = 2024%Z \/ In y [1999%Z]) /\
            map_instrumentId_wrapped y {| symbol := "ESH4"; venue := "CME" |}
            = ok {| symbol := "ESH14"; venue := "GLBX" |}.
Proof.
  split; [reflexivity |].
  exact (proj1 (cache_returns_computed_results
                  [(1999%Z, {| symbol := "ESH4"; venue := "CME" |})] 2024
                  {| symbol := "ESH4"; venue := "CME" |}
                  {| symbol := "ESH14"; venue := "GLBX" |} eq_refl)).
Defined.

(** X19.  A result stays cached over the next nineteen other
    identifiers: after a call that returned, calls on at most nineteen
    pairwise different other identifiers, returning or raising, in
    whatever years, leave its result in the cache. *)
Theorem cache_retains_recent_result
    (year : Z) (instrument_id r : InstrumentId) (st : cache)
    (calls : list (Z * InstrumentId)) :
  cache_ok st ->
  fst (map_instrumentId year instrument_id st) = ok r ->
  NoDup (map snd calls) ->
  ~ In instrument_id (map snd calls) ->
  (List.length calls <= 19)%nat ->
  LruCache.cached InstrumentId_eqb instrument_id
    (run_calls calls (snd (map_instrumentId year instrument_id st))) = Some r.
Proof.
  intros Hok Hr Hnd Hnotin Hlen.
  destruct (call_links_last _ _ InstrumentId_eqb 20
              (map_instrumentId_wrapped year) instrument_id st r Hr)
    as (rest & Hlinks).
  destruct (run_calls_keeps_suffix calls
              (snd (map_instrumentId year instrument_id st))
              rest [(instrument_id, r)]) as (rest' & suf' & Hfin).
  - exact Hlinks.
  - simpl. constructor; assumption.
  - simpl. lia.
  - unfold LruCache.cached.
    apply (cache_get_NoDup_In _ _ _ InstrumentId_eqb_eq).
    + apply (run_calls_cache_ok calls). now apply map_instrumentId_cache_ok.
    + rewrite Hfin. apply in_or_app. right. now left.
Qed.

Lemma cache_retains_recent_result_witness :
  cache_ok LruCache.empty /\
  fst (map_instrumentId 2024 {| symbol := "ESH4"; venue := "CME" |} LruCache.empty)
    = ok {| symbol := "ESH24"; venue := "GLBX" |} /\
  NoDup (map snd (map (pair 2024%Z) (sample_ids 0 19))) /\
  ~ In {| symbol := "ESH4"; venue := "CME" |}
       (map snd (map (pair 2024%Z) (sample_ids 0 19))) /\
  (List.length (map (pair 2024%Z) (sample_ids 0 19)) <= 19)%nat /\
  LruCache.cached InstrumentId_eqb {| symbol := "ESH4"; venue := "CME" |}
    (run_calls (map (pair 2024%Z) (sample_ids 0 19))
       (snd (map_instrumentId 2024 {| symbol := "ESH4"; venue := "CME" |}
               LruCache.empty)))
  = Some {| symbol := "ESH24"; venue := "GLBX" |}.
Proof.
  assert (Hempty : cache_ok LruCache.empty).
  { split; [constructor | simpl; lia]. }
  assert (Hnd : NoDup (map snd (map (pair 2024%Z) (sample_ids 0 19)))).
  { vm_compute. repeat (constructor; [simpl; intuition discriminate |]).
    constructor. }
  assert (Hnotin : ~ In {| symbol := "ESH4"; venue := "CME" |}
                        (map snd (map (pair 2024%Z) (sample_ids 0 19)))).
  { vm_compute. intuition discriminate. }
  split; [exact Hempty |]. split; [reflexivity |]. split; [exact Hnd |].
  split; [exact Hnotin |]. split; [simpl; lia |].
  exact (cache_retains_recent_result 2024
           {| symbol := "ESH4"; venue := "CME" |}
           {| symbol := "ESH24"; venue := "GLBX" |}
           LruCache.empty (map (pair 2024%Z) (sample_ids 0 19))
           Hempty eq_refl Hnd Hnotin ltac:(simpl; lia)).
Defined.
